(** * Freelance marketplace backend: handlers of [login.js] and [server.js]

    A shallow embedding of the Express handlers (register, login, the
    [authenticateToken] middleware, profile update, job creation, hire and
    messaging) over an in-memory model of the three MySQL tables, followed
    by the properties of the handlers.

    Conventions of the embedding:
    - a field destructured from [req.body] is an [option]: [None] is the
      JavaScript [undefined] (the key is missing), [Some v] a supplied value;
    - a nullable column is an [option]: [None] is SQL [NULL];
    - the values of a request are typed at the boundary: a body field is a
      string (a number for ids and the budget) or missing, the id of a route
      is a number, and SQL's comparison of a column with a parameter is
      equality;
    - [pool.execute] is total on the model except for the driver's own
      argument check (a bind parameter that is [undefined] throws), which the
      comment in the profile handler relies on; connection failures are not
      modelled;
    - the outcomes of the outside services (clock, salt generator, e-mail
      API, object storage) are given to each request in an [env]. *)

From Stdlib Require Import ZArith List Ascii String Bool Lia.
From Stdlib Require Import RelationClasses Permutation.
Import ListNotations.
Open Scope string_scope.
Open Scope Z_scope.

(** ** JavaScript values of the request *)

Definition field := option string.

(** [v ? a : b] and [!v] on an optional string: [undefined] and the empty
    string are falsy. *)
Definition truthy (v : field) : bool :=
  match v with
  | Some s => negb (s =? "")%string
  | None => false
  end.

(** [v ? a : b] and [!v] on an optional number: [undefined], [null] and [0]
    are falsy. *)
Definition truthy_num (v : option Z) : bool :=
  match v with
  | Some n => negb (n =? 0)
  | None => false
  end.

(** [v === undefined] on a request value, [v === null] on a column value. *)
Definition is_undefined {A} (v : option A) : bool :=
  match v with
  | Some _ => false
  | None => true
  end.

(** Interpolation of a value in a template literal. *)
Definition show (v : field) : string :=
  match v with
  | Some s => s
  | None => "undefined"
  end.

(** ** Persisted schema *)

(** Modelled from the spec: the table definitions are not part of the
    sources.  Section 3 and 6 of the specification give the columns; [id]
    is the system-assigned (auto-increment) key returned as [insertId], and
    the columns an INSERT does not mention take their defaults: [status] is
    'open', [freelancer_id], [bio] and [avatar_url] are NULL, [created_at]
    is the time of the insert. *)
Record user := mkUser {
  u_id : Z;
  u_name : string;
  u_email : string;
  u_password : string;
  u_role : string;
  u_bio : option string;
  u_avatar_url : option string
}.

(** Modelled from the spec: the jobs table, with the columns of section 3;
    [status] defaults to 'open' and [freelancer_id] to NULL. *)
Record job := mkJob {
  j_id : Z;
  j_client_id : Z;
  j_title : string;
  j_description : string;
  j_budget : Z;
  j_status : string;
  j_freelancer_id : option Z
}.

(** Modelled from the spec: the messages table, with the columns of
    section 3; [created_at] is the time of the insert. *)
Record message := mkMessage {
  m_id : Z;
  m_job_id : Z;
  m_sender_id : Z;
  m_receiver_id : option Z;
  m_content : string;
  m_created_at : Z
}.

(** ** Outside services *)

(** A request body posted to the e-mail API. *)
Record email := mkEmail {
  e_toName : field;
  e_toEmail : field;
  e_subject : string;
  e_htmlContent : string
}.

(** What [axios.post] does: it resolves with [response.data], or rejects
    with an error carrying an optional [response.data] and a [message]. *)
Inductive mail_outcome :=
| MailDelivered (data : string)
| MailFailed (response : option string) (message : string).

(** What the upload stream does: it calls back with a result whose
    [secure_url] is the public URL, or with an error. *)
Inductive upload_outcome :=
| UploadDone (secure_url : string)
| UploadFailed (message : string).

Record env := mkEnv {
  now : Z;                  (* clock, in seconds *)
  salt : string;            (* the salt bcrypt.genSalt draws *)
  mail : mail_outcome;
  upload : upload_outcome
}.

(** ** The state a handler runs in *)

Record world := mkWorld {
  users : list user;
  jobs : list job;
  messages : list message;
  auto_users : Z;           (* next auto-increment value of users.id *)
  auto_jobs : Z;
  auto_messages : Z;
  console : list string;    (* lines written by console.log / console.error *)
  outbox : list email;      (* requests made to the e-mail API *)
  cloud : list string       (* buffers written to the object storage *)
}.

Definition set_users (f : list user -> list user) (w : world) : world :=
  mkWorld (f (users w)) (jobs w) (messages w)
          (auto_users w) (auto_jobs w) (auto_messages w)
          (console w) (outbox w) (cloud w).

Definition set_jobs (f : list job -> list job) (w : world) : world :=
  mkWorld (users w) (f (jobs w)) (messages w)
          (auto_users w) (auto_jobs w) (auto_messages w)
          (console w) (outbox w) (cloud w).

Definition set_messages (f : list message -> list message) (w : world) : world :=
  mkWorld (users w) (jobs w) (f (messages w))
          (auto_users w) (auto_jobs w) (auto_messages w)
          (console w) (outbox w) (cloud w).

Definition bump_users (w : world) : world :=
  mkWorld (users w) (jobs w) (messages w)
          (auto_users w + 1) (auto_jobs w) (auto_messages w)
          (console w) (outbox w) (cloud w).

Definition bump_jobs (w : world) : world :=
  mkWorld (users w) (jobs w) (messages w)
          (auto_users w) (auto_jobs w + 1) (auto_messages w)
          (console w) (outbox w) (cloud w).

Definition bump_messages (w : world) : world :=
  mkWorld (users w) (jobs w) (messages w)
          (auto_users w) (auto_jobs w) (auto_messages w + 1)
          (console w) (outbox w) (cloud w).

Definition write_console (line : string) (w : world) : world :=
  mkWorld (users w) (jobs w) (messages w)
          (auto_users w) (auto_jobs w) (auto_messages w)
          (console w ++ [line]) (outbox w) (cloud w).

Definition post_email (m : email) (w : world) : world :=
  mkWorld (users w) (jobs w) (messages w)
          (auto_users w) (auto_jobs w) (auto_messages w)
          (console w) (outbox w ++ [m]) (cloud w).

Definition store_buffer (b : string) (w : world) : world :=
  mkWorld (users w) (jobs w) (messages w)
          (auto_users w) (auto_jobs w) (auto_messages w)
          (console w) (outbox w) (cloud w ++ [b]).

(** The database part of a world: the three tables. *)
Definition database (w : world) : list user * list job * list message :=
  (users w, jobs w, messages w).

(** ** Responses *)

Record public_user := mkPublic {
  p_id : Z;
  p_name : string;
  p_role : string;
  p_avatar : option string
}.

Inductive json :=
| JError (error : string)
| JMessage (message : string)
| JUserCreated (message : string) (userId : Z)
| JSession (token : string) (user : public_user)
| JProfile (message : string) (avatar : option string)
| JJobCreated (message : string) (jobId : Z)
| JText (text : string).

Record response := mkResponse {
  status : Z;
  body : json
}.

(** ** The handler monad

    A computation either yields a value, or has sent its response from an
    early [return res...], or has thrown. *)

Inductive exn :=
| TypeError (message : string)
| Error (message : string)
| AxiosError (response : option string) (message : string).

Inductive outcome (A : Type) :=
| Value (a : A)
| Sent (r : response)
| Thrown (e : exn).
Arguments Value {A} a.
Arguments Sent {A} r.
Arguments Thrown {A} e.

Definition M (A : Type) : Type := world -> outcome A * world.

Definition ret {A} (a : A) : M A := fun w => (Value a, w).

Definition bind {A B} (m : M A) (k : A -> M B) : M B :=
  fun w =>
    match m w with
    | (Value a, w') => k a w'
    | (Sent r, w') => (Sent r, w')
    | (Thrown e, w') => (Thrown e, w')
    end.

Definition send {A} (r : response) : M A := fun w => (Sent r, w).
Definition throw {A} (e : exn) : M A := fun w => (Thrown e, w).
Definition get : M world := fun w => (Value w, w).
Definition modify (f : world -> world) : M unit := fun w => (Value tt, f w).

(** [try { m } catch (error) { h error }] *)
Definition try_catch {A} (m : M A) (h : exn -> M A) : M A :=
  fun w =>
    match m w with
    | (Thrown e, w') => h e w'
    | r => r
    end.

Declare Scope handler_scope.
Delimit Scope handler_scope with handler.
Notation "x <- m ;; k" := (bind m (fun x => k))
  (at level 61, m at next level, right associativity) : handler_scope.
Notation "m ;; k" := (bind m (fun _ => k))
  (at level 61, right associativity) : handler_scope.
Open Scope handler_scope.

(** Running a route handler: the response the client receives ([None] when
    the handler ended without sending one) and the world it leaves. *)
Definition run (m : M response) (w : world) : option response * world :=
  match m w with
  | (Value r, w') => (Some r, w')
  | (Sent r, w') => (Some r, w')
  | (Thrown _, w') => (None, w')
  end.

Definition show_exn (e : exn) : string :=
  match e with
  | TypeError m => "TypeError: " ++ m
  | Error m => "Error: " ++ m
  | AxiosError _ m => "AxiosError: " ++ m
  end.

Definition console_log (line : string) : M unit := modify (write_console line).
Definition console_error (parts : list string) : M unit :=
  modify (write_console (String.concat " " parts)).

(** ** The database driver *)

(** [pool.execute] refuses a bind parameter that is [undefined]. *)
Definition param {A} (v : option A) : M A :=
  match v with
  | Some a => ret a
  | None => throw (TypeError "Bind parameters must not contain undefined. To pass SQL NULL specify JS null")
  end.

(** [SELECT * FROM users WHERE email = ?] *)
Definition select_users_by_email (email : field) : M (list user) :=
  e <- param email ;;
  w <- get ;;
  ret (filter (fun u => (u_email u =? e)%string) (users w)).

(** [INSERT INTO users (name, email, password, role) VALUES (?, ?, ?, ?)];
    the result carries [insertId]. *)
Definition insert_user (name email : field) (password role : string) : M Z :=
  n <- param name ;;
  e <- param email ;;
  w <- get ;;
  let id := auto_users w in
  modify (fun w => bump_users (set_users (fun us => (us ++ [mkUser id n e password role None None])%list) w)) ;;
  ret id.

(** [UPDATE users SET bio = ? WHERE id = ?], and with [avatar_url = ?]
    appended to the SET list when the handler pushed that parameter. *)
Definition update_user_row (bio : option string) (avatar_url : option string) (id : Z) (u : user) : user :=
  if u_id u =? id then
    mkUser (u_id u) (u_name u) (u_email u) (u_password u) (u_role u) bio
           (match avatar_url with
            | Some url => Some url
            | None => u_avatar_url u
            end)
  else u.

Definition update_users_profile (bio : option string) (avatar_url : option string) (id : Z) : M unit :=
  modify (set_users (map (update_user_row bio avatar_url id))).

(** [INSERT INTO jobs (client_id, title, description, budget) VALUES (?, ?, ?, ?)] *)
Definition insert_job (client_id : Z) (title description : field) (budget : option Z) : M Z :=
  t <- param title ;;
  d <- param description ;;
  b <- param budget ;;
  w <- get ;;
  let id := auto_jobs w in
  modify (fun w => bump_jobs (set_jobs (fun js => (js ++ [mkJob id client_id t d b "open" None])%list) w)) ;;
  ret id.

(** [SELECT * FROM jobs WHERE id = ? AND status = "open"] *)
Definition select_open_job (id : Z) : M (list job) :=
  w <- get ;;
  ret (filter (fun j => (j_id j =? id) && (j_status j =? "open")%string) (jobs w)).

(** [UPDATE jobs SET freelancer_id = ?, status = "in_progress" WHERE id = ?] *)
Definition assign_job_row (freelancer_id id : Z) (j : job) : job :=
  if j_id j =? id then
    mkJob (j_id j) (j_client_id j) (j_title j) (j_description j) (j_budget j)
          "in_progress" (Some freelancer_id)
  else j.

Definition update_job_hired (freelancer_id id : Z) : M unit :=
  modify (set_jobs (map (assign_job_row freelancer_id id))).

(** A comparison with a NULL column is not true. *)
Definition sql_eq_null (column : option Z) (v : Z) : bool :=
  match column with
  | Some c => c =? v
  | None => false
  end.

(** [SELECT * FROM jobs WHERE id = ? AND (client_id = ? OR freelancer_id = ?)] *)
Definition select_job_of_participant (id : option Z) (who : Z) : M (list job) :=
  i <- param id ;;
  w <- get ;;
  ret (filter (fun j => (j_id j =? i) &&
                        ((j_client_id j =? who) || sql_eq_null (j_freelancer_id j) who))
              (jobs w)).

(** [INSERT INTO messages (job_id, sender_id, receiver_id, content) VALUES (?, ?, ?, ?)] *)
Definition insert_message (e : env) (job_id : option Z) (sender_id : Z) (receiver_id : option Z)
  (content : field) : M Z :=
  j <- param job_id ;;
  c <- param content ;;
  w <- get ;;
  let id := auto_messages w in
  modify (fun w => bump_messages
            (set_messages (fun ms => (ms ++ [mkMessage id j sender_id receiver_id c (now e)])%list) w)) ;;
  ret id.

(** ** The e-mail API and the object storage *)

Definition axios_post (e : env) (m : email) : M string :=
  modify (post_email m) ;;
  match mail e with
  | MailDelivered data => ret data
  | MailFailed response message => throw (AxiosError response message)
  end.

(** [error.response ? error.response.data : error.message] *)
Definition brevo_error_detail (error : exn) : string :=
  match error with
  | AxiosError (Some data) _ => data
  | AxiosError None message => message
  | TypeError message => message
  | Error message => message
  end.

Definition sendEmailBrevo (e : env) (toName toEmail : field) (subject htmlContent : string)
  : M (option string) :=
  try_catch
    (data <- axios_post e (mkEmail toName toEmail subject htmlContent) ;;
     console_log ("Email de registro enviado para " ++ show toEmail) ;;
     ret (Some data))
    (fun error =>
       console_error ["Erro ao enviar email Brevo:"; brevo_error_detail error] ;;
       ret None).

Definition uploadToCloudinary (e : env) (fileBuffer : string) : M string :=
  modify (store_buffer fileBuffer) ;;
  match upload e with
  | UploadDone secure_url => ret secure_url
  | UploadFailed message => throw (Error message)
  end.

(** ** Password hashing and tokens

    The two libraries are outside the repository; the handlers receive them,
    with the signing secret, as the module receives [pool] and [JWT_SECRET]. *)

(** The content of a signed token: the payload [{id, role}], the issue and
    expiry times the library adds, and the key its signature verifies under. *)
Record token := mkToken {
  t_id : Z;
  t_role : string;
  t_iat : Z;
  t_exp : Z;
  t_key : string
}.

Record services := mkServices {
  JWT_SECRET : string;
  (* bcrypt: the digest of a password under a salt and a cost, and the test
     of a candidate password against a stored digest *)
  bcrypt_digest : string -> string -> Z -> string;
  bcrypt_matches : string -> string -> bool;
  (* jsonwebtoken: the compact serialization of a token and its parser,
     [None] on a string that is not a well-formed token *)
  jwt_encode : token -> string;
  jwt_decode : string -> option token
}.

(** What the middleware attaches as [req.user]. *)
Record identity := mkIdentity {
  id : Z;
  role : string
}.

Section Libraries.

Variable S : services.

(** [bcrypt.hash(s, rounds)]: the promise is rejected unless [s] is a string. *)
Definition bcrypt_hash (e : env) (s : field) (rounds : Z) : M string :=
  match s with
  | Some password => ret (bcrypt_digest S password (salt e) rounds)
  | None => throw (Error "Illegal arguments: undefined, number")
  end.

(** [bcrypt.compare(s, hash)]: the promise is rejected unless [s] is a string. *)
Definition bcrypt_compare (s : field) (hash : string) : M bool :=
  match s with
  | Some password => ret (bcrypt_matches S password hash)
  | None => throw (Error "Illegal arguments: undefined, string")
  end.

(** [expiresIn: '24h'], in seconds. *)
Definition expiresIn_24h : Z := 24 * 60 * 60.

(** [jwt.sign({ id, role }, secret, { expiresIn: '24h' })]: the library
    refuses to sign without a secret and throws; an unset [JWT_SECRET] and
    an empty one are the same falsy secret to it, both the empty string
    here. *)
Definition jwt_sign (e : env) (payload : identity) (secret : string) : M string :=
  if (secret =? "")%string
  then throw (Error "secretOrPrivateKey must have a value")
  else ret (jwt_encode S (mkToken (id payload) (role payload) (now e)
                                  (now e + expiresIn_24h) secret)).

(** [jwt.verify(token, secret, callback)]: the callback receives an error
    when the string is no token, when its signature does not verify under
    [secret], or when the clock has reached its expiry; the payload otherwise. *)
Definition jwt_verify (e : env) (tok : string) (secret : string) : string + identity :=
  match jwt_decode S tok with
  | None => inl "JsonWebTokenError"
  | Some t =>
      if negb (t_key t =? secret)%string then inl "JsonWebTokenError"
      else if t_exp t <=? now e then inl "TokenExpiredError"
      else inr (mkIdentity (t_id t) (t_role t))
  end.

End Libraries.

(** ** Request bodies *)

Record register_body := mkRegisterBody {
  rb_name : field;
  rb_email : field;
  rb_password : field;
  rb_role : field
}.

Record login_body := mkLoginBody {
  lb_email : field;
  lb_password : field
}.

Record job_body := mkJobBody {
  jb_title : field;
  jb_description : field;
  jb_budget : option Z
}.

Record message_body := mkMessageBody {
  mb_jobId : option Z;
  mb_content : field;
  mb_receiverId : option Z
}.

(** [s.split(' ')]: the pieces between single spaces, empty pieces kept. *)
Fixpoint split_space (s : string) : list string :=
  match s with
  | EmptyString => [EmptyString]
  | String c rest =>
      if Ascii.eqb c " "%char then EmptyString :: split_space rest
      else match split_space rest with
           | piece :: pieces => String c piece :: pieces
           | [] => [String c EmptyString]
           end
  end.

Section Handlers.

Variable S : services.

(** *** login.js *)

(** [router.post('/register', ...)] *)
Definition register (e : env) (b : register_body) : M response :=
  let name := rb_name b in
  let email := rb_email b in
  let password := rb_password b in
  let role := rb_role b in
  try_catch
    (found <- select_users_by_email email ;;
     (if (0 <? List.length found)%nat
      then send (mkResponse 400 (JError "Email já cadastrado"))
      else ret tt) ;;
     hashedPassword <- bcrypt_hash S e password 10 ;;
     let userRole := if truthy role then show role else "freelancer" in
     insertId <- insert_user name email hashedPassword userRole ;;
     sendEmailBrevo e name email "Bem-vindo ao LoopMid!"
       ("<h1>Olá " ++ show name ++ "!</h1><p>Sua conta foi criada com sucesso.</p>") ;;
     ret (mkResponse 201 (JUserCreated "Usuário criado com sucesso!" insertId)))
    (fun error =>
       console_error ["Erro no Registro:"; show_exn error] ;;
       ret (mkResponse 500 (JError "Erro no servidor durante o registro"))).

(** [router.post('/login', ...)] *)
Definition login (e : env) (b : login_body) : M response :=
  let email := lb_email b in
  let password := lb_password b in
  try_catch
    (found <- select_users_by_email email ;;
     match found with
     | [] => send (mkResponse 400 (JError "Usuário não encontrado"))
     | user :: _ =>
         validPassword <- bcrypt_compare S password (u_password user) ;;
         (if negb validPassword
          then send (mkResponse 400 (JError "Senha incorreta"))
          else ret tt) ;;
         token <- jwt_sign S e (mkIdentity (u_id user) (u_role user)) (JWT_SECRET S) ;;
         ret (mkResponse 200
                (JSession token
                   (mkPublic (u_id user) (u_name user) (u_role user) (u_avatar_url user))))
     end)
    (fun error =>
       console_error ["Erro no Login:"; show_exn error] ;;
       ret (mkResponse 500 (JError "Erro no servidor durante o login"))).

(** *** server.js *)

(** [authenticateToken (req, res, next)]: [next] is the rest of the route,
    which reads [req.user]. *)
Definition authenticateToken (e : env) (authHeader : field) (next : identity -> M response)
  : M response :=
  let token :=
    if truthy authHeader then nth_error (split_space (show authHeader)) 1
    else authHeader in
  if negb (truthy token) then send (mkResponse 401 (JError "Acesso negado"))
  else
    match jwt_verify S e (show token) (JWT_SECRET S) with
    | inl err => send (mkResponse 403 (JError "Token inválido"))
    | inr user => next user
    end.

(** [app.put('/profile', authenticateToken, upload.single('avatar'), ...)]:
    [file] is [req.file.buffer], [None] when no file came with the request. *)
Definition updateProfile (e : env) (user : identity) (bio : field) (file : option string)
  : M response :=
  let userId := id user in
  try_catch
    (avatarUrl <- match file with
                  | Some buffer => secure_url <- uploadToCloudinary e buffer ;; ret (Some secure_url)
                  | None => ret None
                  end ;;
     let finalBio :=
       match bio with
       | Some text => if (text =? "")%string then None else Some text
       | None => None
       end in
     (match avatarUrl with
      | Some _ => ret tt
      | None =>
          if is_undefined file && is_undefined finalBio
          then send (mkResponse 200 (JProfile "Nenhum dado fornecido para atualização." None))
          else ret tt
      end) ;;
     update_users_profile finalBio avatarUrl userId ;;
     ret (mkResponse 200 (JProfile "Perfil atualizado com sucesso" avatarUrl)))
    (fun error =>
       console_error [show_exn error] ;;
       ret (mkResponse 500 (JError "Erro ao atualizar perfil"))).

(** [app.post('/jobs', authenticateToken, ...)] *)
Definition createJob (e : env) (user : identity) (b : job_body) : M response :=
  if negb (role user =? "client")%string
  then send (mkResponse 403 (JError "Apenas clientes podem postar jobs"))
  else
    let client_id := id user in
    try_catch
      (insertId <- insert_job client_id (jb_title b) (jb_description b) (jb_budget b) ;;
       ret (mkResponse 201 (JJobCreated "Job publicado!" insertId)))
      (fun error =>
         console_error ["Erro ao criar job:"; show_exn error] ;;
         ret (mkResponse 500 (JError "Erro ao criar job"))).

(** [app.post('/jobs/:id/hire', authenticateToken, ...)] *)
Definition hire (e : env) (user : identity) (jobId : Z) : M response :=
  let freelancerId := id user in
  if negb (role user =? "freelancer")%string
  then send (mkResponse 403 (JError "Apenas freelancers podem aceitar jobs"))
  else
    try_catch
      (found <- select_open_job jobId ;;
       (if (List.length found =? 0)%nat
        then send (mkResponse 404 (JError "Job não disponível"))
        else ret tt) ;;
       update_job_hired freelancerId jobId ;;
       ret (mkResponse 200 (JMessage "Job aceito com sucesso! Chat liberado.")))
      (fun error =>
         console_error [show_exn error] ;;
         ret (mkResponse 500 (JError "Erro ao processar contratação"))).

(** [app.post('/messages', authenticateToken, ...)] *)
Definition sendMessage (e : env) (user : identity) (b : message_body) : M response :=
  let jobId := mb_jobId b in
  let content := mb_content b in
  let receiverId := mb_receiverId b in
  let senderId := id user in
  try_catch
    (found <- select_job_of_participant jobId senderId ;;
     match found with
     | [] => send (mkResponse 403 (JError "Permissão negada"))
     | job0 :: _ =>
         let finalReceiverId :=
           if senderId =? j_client_id job0 then j_freelancer_id job0
           else Some (j_client_id job0) in
         (if negb (truthy_num finalReceiverId)
          then send (mkResponse 400 (JError "O job ainda não foi aceito por um freelancer."))
          else ret tt) ;;
         insert_message e jobId senderId finalReceiverId content ;;
         ret (mkResponse 201 (JMessage "Mensagem enviada"))
     end)
    (fun error =>
       console_error [show_exn error] ;;
       ret (mkResponse 500 (JError "Erro ao enviar mensagem"))).

End Handlers.

(** ** The server *)

Inductive request :=
| PostRegister (b : register_body)
| PostLogin (b : login_body)
| PutProfile (authorization : field) (bio : field) (file : option string)
| PostJobs (authorization : field) (b : job_body)
| PostHire (authorization : field) (jobId : Z)
| PostMessages (authorization : field) (b : message_body).

Section Server.

Variable S : services.

(** The routes with their middleware, as [app.use] and [app.METHOD] wire them. *)
Definition route (e : env) (r : request) : M response :=
  match r with
  | PostRegister b => register S e b
  | PostLogin b => login S e b
  | PutProfile authorization bio file =>
      authenticateToken S e authorization (fun user => updateProfile e user bio file)
  | PostJobs authorization b =>
      authenticateToken S e authorization (fun user => createJob e user b)
  | PostHire authorization jobId =>
      authenticateToken S e authorization (fun user => hire e user jobId)
  | PostMessages authorization b =>
      authenticateToken S e authorization (fun user => sendMessage e user b)
  end.

(** One request handled to completion: the sequential step of the server. *)
Definition serve (e : env) (r : request) (w : world) : world :=
  snd (run (route e r) w).

(** The worlds the server gets to from [w] by handling requests one after
    the other. *)
Inductive steps (w : world) : world -> Prop :=
| steps_refl : steps w w
| steps_serve w' e r : steps w w' -> steps w (serve e r w').

End Server.

(** The empty database, its counters at their first value. *)
Definition initial : world := mkWorld [] [] [] 1 1 1 [] [] [].

Definition reachable (S : services) (w : world) : Prop := steps S initial w.

(** ** A test double of the libraries

    A digest that keeps the password readable and a token table with three
    entries; the properties below hold for every [services], these give
    them concrete instances. *)

Definition ana_token : token := mkToken 1 "client" 1000 87400 "s3cret".
Definition bia_token : token := mkToken 2 "freelancer" 1000 87400 "s3cret".
Definition eve_token : token := mkToken 2 "freelancer" 1000 87400 "other".

Definition token_eqb (a b : token) : bool :=
  (t_id a =? t_id b) && (t_role a =? t_role b)%string && (t_iat a =? t_iat b)
  && (t_exp a =? t_exp b) && (t_key a =? t_key b)%string.

Definition test_services : services :=
  mkServices "s3cret"
    (fun password salt rounds => salt ++ "$" ++ password)
    (fun password digest => (digest =? "pepper$" ++ password)%string)
    (fun t => if token_eqb t ana_token then "ana.jwt"
              else if token_eqb t bia_token then "bia.jwt"
              else if token_eqb t eve_token then "eve.jwt"
              else "unsigned")
    (fun s => if (s =? "ana.jwt")%string then Some ana_token
              else if (s =? "bia.jwt")%string then Some bia_token
              else if (s =? "eve.jwt")%string then Some eve_token
              else None).

(** The same libraries on a server whose [JWT_SECRET] is not set. *)
Definition unconfigured_services : services :=
  mkServices "" (bcrypt_digest test_services) (bcrypt_matches test_services)
             (jwt_encode test_services) (jwt_decode test_services).

Definition test_env : env := mkEnv 1000 "pepper" (MailDelivered "queued") (UploadDone "https://cdn.test/a.png").

Definition ana : user := mkUser 1 "Ana" "ana@test" "pepper$hunter2" "client" (Some "Designer") None.
Definition bia : user := mkUser 2 "Bia" "bia@test" "pepper$letmein" "freelancer" None None.

Definition open_job : job := mkJob 1 1 "Logo" "A logo" 300 "open" None.
Definition hired_job : job := mkJob 1 1 "Logo" "A logo" 300 "in_progress" (Some 2).

(** A world with two users and one job. *)
Definition test_world (j : job) : world := mkWorld [ana; bia] [j] [] 3 2 1 [] [] [].

(** The world after Ana posted a job and Bia was hired for it. *)
Definition posted_world : world :=
  serve test_services test_env
    (PostJobs (Some "Bearer ana.jwt") (mkJobBody (Some "Logo") (Some "A logo") (Some 300)))
    initial.

Definition hired_world : world :=
  serve test_services test_env (PostHire (Some "Bearer bia.jwt") 1) posted_world.

(** A route to put after the middleware in examples: it answers with the
    role it finds in [req.user]. *)
Definition echo_role (user : identity) : M response :=
  ret (mkResponse 200 (JText (role user))).

(** A day and more after the test tokens were issued. *)
Definition late_env : env := mkEnv 90000 "pepper" (MailDelivered "queued") (UploadDone "https://cdn.test/a.png").

(** ** Vocabulary of the properties *)

(** The row [hire] writes over a job. *)
Definition hired (freelancerId : Z) (j : job) : job :=
  mkJob (j_id j) (j_client_id j) (j_title j) (j_description j) (j_budget j)
        "in_progress" (Some freelancerId).

(** The two shapes a job row has: open and unassigned, or in progress and
    assigned. *)
Definition job_consistent (j : job) : Prop :=
  (j_status j = "open" /\ j_freelancer_id j = None) \/
  (j_status j = "in_progress" /\ exists f, j_freelancer_id j = Some f).

(** The invariant of the jobs table: every row has one of the two shapes,
    ids are unique and below the auto-increment counter. *)
Definition jobs_invariant (w : world) : Prop :=
  Forall job_consistent (jobs w) /\
  NoDup (map j_id (jobs w)) /\
  Forall (fun j => j_id j < auto_jobs w) (jobs w).

(** What one request does to the jobs table: nothing, the insert of an open
    job under the next id, or the assignment of a job that was open. *)
Inductive jobs_effect (w w' : world) : Prop :=
| effect_none :
    jobs w' = jobs w -> auto_jobs w' = auto_jobs w -> jobs_effect w w'
| effect_insert client_id title description budget :
    jobs w' = (jobs w ++ [mkJob (auto_jobs w) client_id title description budget "open" None])%list ->
    auto_jobs w' = auto_jobs w + 1 -> jobs_effect w w'
| effect_assign freelancer_id jobId :
    (exists j, In j (jobs w) /\ j_id j = jobId /\ j_status j = "open") ->
    jobs w' = map (assign_job_row freelancer_id jobId) (jobs w) ->
    auto_jobs w' = auto_jobs w -> jobs_effect w w'.

(** A computation that leaves the jobs table and its counter alone. *)
Definition keeps_jobs {A} (m : M A) : Prop :=
  forall w, jobs (snd (m w)) = jobs w /\ auto_jobs (snd (m w)) = auto_jobs w.

(** The environment [e] with another outcome of the e-mail API. *)
Definition with_mail (e : env) (m : mail_outcome) : env :=
  mkEnv (now e) (salt e) m (upload e).

(** Whether a string has a space in it. *)
Fixpoint contains_space (s : string) : bool :=
  match s with
  | EmptyString => false
  | String c rest => Ascii.eqb c " "%char || contains_space rest
  end.

(** The token an authorization header carries: the second of the words the
    header splits into at single spaces, whatever the first word is. *)
Definition token_of_header (authHeader : field) : field :=
  match authHeader with
  | Some h => nth_error (split_space h) 1
  | None => None
  end.

(** ** The read routes *)

(** A row of the job listing: [jobs.*] with [users.name as client_name]. *)
Record job_listing := mkJobListing {
  jl_job : job;
  jl_client_name : string
}.

(** A row of a thread: [messages.*] with [u.name as sender_name]. *)
Record message_listing := mkMessageListing {
  ml_message : message;
  ml_sender_name : string
}.

(** What the client of a read route gets: the rows as JSON, or a response
    sent on the way, or nothing. *)
Inductive answer (A : Type) :=
| Listed (rows : list A)
| Answered (r : response)
| Unanswered.
Arguments Listed {A} rows.
Arguments Answered {A} r.
Arguments Unanswered {A}.

Definition run_query {A} (m : M (list A)) (w : world) : answer A * world :=
  match m w with
  | (Value rows, w') => (Listed rows, w')
  | (Sent r, w') => (Answered r, w')
  | (Thrown _, w') => (Unanswered, w')
  end.

(** [SELECT jobs.*, users.name as client_name FROM jobs
     JOIN users ON jobs.client_id = users.id WHERE status = 'open'] *)
Definition select_open_jobs_with_client : M (list job_listing) :=
  w <- get ;;
  ret (flat_map
         (fun j => map (fun u => mkJobListing j (u_name u))
                       (filter (fun u => j_client_id j =? u_id u) (users w)))
         (filter (fun j => (j_status j =? "open")%string) (jobs w))).

(** [app.get('/jobs', ...)] *)
Definition listOpenJobs : M (list job_listing) :=
  try_catch
    (found <- select_open_jobs_with_client ;;
     ret found)
    (fun error => send (mkResponse 500 (JError "Erro ao buscar jobs"))).

(** [ORDER BY created_at ASC]: insertion of a row before the first row that
    is not older, rows of equal time kept in the order they had. *)
Fixpoint insert_by_created_at (r : message_listing) (rows : list message_listing)
  : list message_listing :=
  match rows with
  | [] => [r]
  | x :: rest =>
      if m_created_at (ml_message r) <=? m_created_at (ml_message x)
      then r :: x :: rest
      else x :: insert_by_created_at r rest
  end.

Definition order_by_created_at (rows : list message_listing) : list message_listing :=
  fold_right insert_by_created_at [] rows.

(** [SELECT messages.*, u.name as sender_name FROM messages
     JOIN users u ON messages.sender_id = u.id
     WHERE job_id = ? ORDER BY created_at ASC] *)
Definition select_messages_with_sender (job_id : option Z) : M (list message_listing) :=
  j <- param job_id ;;
  w <- get ;;
  ret (order_by_created_at
         (flat_map
            (fun m => map (fun u => mkMessageListing m (u_name u))
                          (filter (fun u => m_sender_id m =? u_id u) (users w)))
            (filter (fun m => m_job_id m =? j) (messages w)))).

(** [app.get('/messages/:jobId', authenticateToken, ...)] *)
Definition listMessages (user : identity) (jobId : Z) : M (list message_listing) :=
  let userId := id user in
  try_catch
    (found <- select_job_of_participant (Some jobId) userId ;;
     (if (List.length found =? 0)%nat
      then send (mkResponse 403 (JError "Acesso negado"))
      else ret tt) ;;
     thread <- select_messages_with_sender (Some jobId) ;;
     ret thread)
    (fun error => send (mkResponse 500 (JError "Erro ao buscar mensagens"))).

(** ** Start-up *)





(** ** Vocabulary of the further properties *)

(** A computation whose every run relates the world before to the world
    after by [R]. *)
Definition preserves (R : world -> world -> Prop) {A} (m : M A) : Prop :=
  forall w, R w (snd (m w)).

(** A computation that never ends in an exception. *)
Definition never_throws {A} (m : M A) : Prop :=
  forall w, match fst (m w) with Thrown _ => False | _ => True end.

(** [l'] is [l] with rows added at its end. *)
Definition extends {A} (l l' : list A) : Prop := exists added, l' = (l ++ added)%list.

(** Nothing is deleted: the keys of the users and of the jobs, and the
    messages themselves, stay where they are, new ones come after them. *)
Definition grows (w w' : world) : Prop :=
  extends (map u_id (users w)) (map u_id (users w')) /\
  extends (map j_id (jobs w)) (map j_id (jobs w')) /\
  extends (messages w) (messages w').

(** Only the console differs. *)
Definition only_logs (w w' : world) : Prop :=
  users w' = users w /\ jobs w' = jobs w /\ messages w' = messages w /\
  auto_users w' = auto_users w /\ auto_jobs w' = auto_jobs w /\
  auto_messages w' = auto_messages w /\
  outbox w' = outbox w /\ cloud w' = cloud w.

(** The messages table is as it was. *)
Definition same_messages (w w' : world) : Prop := messages w' = messages w.

(** The invariant of the users table: emails and ids are unique, ids are
    positive and below the auto-increment counter. *)
Definition users_invariant (w : world) : Prop :=
  NoDup (map u_email (users w)) /\
  NoDup (map u_id (users w)) /\
  Forall (fun u => 1 <= u_id u < auto_users w) (users w) /\
  1 <= auto_users w.

Definition keeps_users_invariant (w w' : world) : Prop :=
  users_invariant w -> users_invariant w'.

(** A message between the two participants of an assigned job: from the
    client to the freelancer, or from the freelancer to the client. *)
Definition between_participants (w : world) (m : message) : Prop :=
  exists j f,
    In j (jobs w) /\ j_id j = m_job_id m /\ j_freelancer_id j = Some f /\
    ((m_sender_id m = j_client_id j /\ m_receiver_id m = Some f) \/
     (m_sender_id m = f /\ m_receiver_id m = Some (j_client_id j))).

(** Rows in ascending order of [created_at]. *)
Fixpoint ascending (rows : list message_listing) : Prop :=
  match rows with
  | [] => True
  | x :: rest =>
      Forall (fun y => m_created_at (ml_message x) <= m_created_at (ml_message y)) rest /\
      ascending rest
  end.

(** A world where Ana and Bia have exchanged two messages on the hired job,
    stored out of chronological order. *)
Definition chat_world : world :=
  mkWorld [ana; bia] [hired_job]
          [mkMessage 1 1 2 (Some 1) "on it" 1005; mkMessage 2 1 1 (Some 2) "hello" 1001]
          3 2 3 [] [] [].

(** The world after Ana wrote to Bia on the hired job. *)
Definition chatted_world : world :=
  serve test_services test_env
    (PostMessages (Some "Bearer ana.jwt") (mkMessageBody (Some 1) (Some "hello") None))
    hired_world.

(** The world after two registrations on the empty database. *)
Definition signed_up_world : world :=
  serve test_services test_env
    (PostRegister (mkRegisterBody (Some "Bia") (Some "bia@test") (Some "letmein") None))
    (serve test_services test_env
       (PostRegister (mkRegisterBody (Some "Ana") (Some "ana@test") (Some "hunter2")
                                     (Some "client")))
       initial).

(** ** The earlier server.js

    The second listing of the file: one program with the routes of login.js
    inline, a hire that notifies the client, and the profile and message
    routes before their input was checked. *)

(** The character that encloses the job title in the notification. *)
Definition double_quote : string := String (Ascii.ascii_of_nat 34) EmptyString.

Module Legacy.

Definition sendEmailBrevo (e : env) (toName toEmail : field) (subject htmlContent : string)
  : M (option string) :=
  try_catch
    (data <- axios_post e (mkEmail toName toEmail subject htmlContent) ;;
     console_log ("Email enviado para " ++ show toEmail) ;;
     ret (Some data))
    (fun error =>
       console_error ["Erro ao enviar email Brevo:"; brevo_error_detail error] ;;
       ret None).

(** [SELECT email, name FROM users WHERE id = ?] *)
Definition select_user_contact (user_id : Z) : M (list user) :=
  w <- get ;;
  ret (filter (fun u => u_id u =? user_id) (users w)).

(** [app.put('/profile', authenticateToken, upload.single('avatar'), ...)] *)
Definition updateProfile (e : env) (user : identity) (bio : field) (file : option string)
  : M response :=
  let userId := id user in
  try_catch
    (avatarUrl <- match file with
                  | Some buffer => secure_url <- uploadToCloudinary e buffer ;; ret (Some secure_url)
                  | None => ret None
                  end ;;
     text <- param bio ;;
     update_users_profile (Some text) (if truthy avatarUrl then avatarUrl else None) userId ;;
     ret (mkResponse 200 (JProfile "Perfil atualizado com sucesso" avatarUrl)))
    (fun error =>
       console_error [show_exn error] ;;
       ret (mkResponse 500 (JError "Erro ao atualizar perfil"))).

(** [app.post('/jobs/:id/hire', authenticateToken, ...)] *)
Definition hire (e : env) (user : identity) (jobId : Z) : M response :=
  let freelancerId := id user in
  if negb (role user =? "freelancer")%string
  then send (mkResponse 403 (JError "Apenas freelancers podem aceitar jobs"))
  else
    try_catch
      (found <- select_open_job jobId ;;
       match found with
       | [] => send (mkResponse 404 (JError "Job não disponível"))
       | job0 :: _ =>
           update_job_hired freelancerId jobId ;;
           client <- select_user_contact (j_client_id job0) ;;
           match client with
           | [] => throw (TypeError "Cannot read properties of undefined (reading 'name')")
           | client0 :: _ =>
               sendEmailBrevo e (Some (u_name client0)) (Some (u_email client0))
                 "Seu Job foi aceito!"
                 ("<p>O freelancer pegou seu job " ++ double_quote ++ j_title job0 ++
                  double_quote ++ ". Agora vocês podem trocar mensagens na plataforma.</p>") ;;
               ret (mkResponse 200 (JMessage "Job aceito com sucesso! Chat liberado."))
           end
       end)
      (fun error =>
         console_error [show_exn error] ;;
         ret (mkResponse 500 (JError "Erro ao processar contratação"))).

(** [app.post('/messages', authenticateToken, ...)] *)
Definition sendMessage (e : env) (user : identity) (b : message_body) : M response :=
  let jobId := mb_jobId b in
  let content := mb_content b in
  let senderId := id user in
  try_catch
    (found <- select_job_of_participant jobId senderId ;;
     match found with
     | [] => send (mkResponse 403
                     (JError "Você não tem permissão para enviar mensagens neste job"))
     | job0 :: _ =>
         let receiverId :=
           if senderId =? j_client_id job0 then j_freelancer_id job0
           else Some (j_client_id job0) in
         insert_message e jobId senderId receiverId content ;;
         ret (mkResponse 201 (JMessage "Mensagem enviada"))
     end)
    (fun error =>
       console_error [show_exn error] ;;
       ret (mkResponse 500 (JError "Erro ao enviar mensagem"))).

End Legacy.


(** ** Requests as Express hands them to a handler

    [req.body] is an object when a body parser has filled it and
    [undefined] when none has; every handler that reads the body
    destructures it before its [try]. *)

Record profile_body := mkProfileBody {
  pb_bio : field
}.

Inductive incoming :=
| IncomingRegister (body : option register_body)
| IncomingLogin (body : option login_body)
| IncomingProfile (authorization : field) (body : option profile_body) (file : option string)
| IncomingJobs (authorization : field) (body : option job_body)
| IncomingHire (authorization : field) (jobId : Z)
| IncomingMessages (authorization : field) (body : option message_body).

(** [const { property, ... } = req.body] *)
Definition destructure {A} (property : string) (body : option A) : M A :=
  match body with
  | Some b => ret b
  | None =>
      throw (TypeError ("Cannot destructure property '" ++ property ++
                        "' of 'req.body' as it is undefined."))
  end.

Section Incoming.

Variable S : services.

Definition handle (e : env) (r : incoming) : M response :=
  match r with
  | IncomingRegister body =>
      b <- destructure "name" body ;;
      register S e b
  | IncomingLogin body =>
      b <- destructure "email" body ;;
      login S e b
  | IncomingProfile authorization body file =>
      authenticateToken S e authorization
        (fun user =>
           b <- destructure "bio" body ;;
           updateProfile e user (pb_bio b) file)
  | IncomingJobs authorization body =>
      authenticateToken S e authorization
        (fun user =>
           (* the role check comes before the destructuring *)
           if negb (role user =? "client")%string
           then send (mkResponse 403 (JError "Apenas clientes podem postar jobs"))
           else
             b <- destructure "title" body ;;
             createJob e user b)
  | IncomingHire authorization jobId =>
      authenticateToken S e authorization (fun user => hire e user jobId)
  | IncomingMessages authorization body =>
      authenticateToken S e authorization
        (fun user =>
           b <- destructure "jobId" body ;;
           sendMessage e user b)
  end.

End Incoming.

(** A request whose body was parsed. *)
Definition parsed (r : request) : incoming :=
  match r with
  | PostRegister b => IncomingRegister (Some b)
  | PostLogin b => IncomingLogin (Some b)
  | PutProfile authorization bio file =>
      IncomingProfile authorization (Some (mkProfileBody bio)) file
  | PostJobs authorization b => IncomingJobs authorization (Some b)
  | PostHire authorization jobId => IncomingHire authorization jobId
  | PostMessages authorization b => IncomingMessages authorization (Some b)
  end.

(** * Properties *)

(** ** Lists and queries *)

Lemma filter_empty_iff {A} (f : A -> bool) (l : list A) :
  filter f l = [] <-> (forall x, In x l -> f x = false).
Proof.
  induction l as [|a l IH]; simpl.
  - split; [intros _ x [] | reflexivity].
  - destruct (f a) eqn:Fa; split.
    + discriminate.
    + intros H. rewrite (H a (or_introl eq_refl)) in Fa. discriminate.
    + intros H x [<-|Hx]; [assumption | apply IH; assumption].
    + intros H. apply IH. intros x Hx. apply H. right. assumption.
Qed.

Lemma filter_head_find {A} (f : A -> bool) (l : list A) :
  hd_error (filter f l) = find f l.
Proof.
  induction l as [|a l IH]; simpl; [reflexivity|].
  destruct (f a); [reflexivity | assumption].
Qed.

Lemma filter_cons_find {A} (f : A -> bool) (l : list A) (x : A) :
  find f l = Some x -> exists rest, filter f l = x :: rest.
Proof.
  rewrite <- filter_head_find.
  destruct (filter f l) as [|y rest]; simpl; [discriminate|].
  intros [= ->]. exists rest. reflexivity.
Qed.

Lemma length_zero_eqb {A} (l : list A) :
  (List.length l =? 0)%nat = match l with [] => true | _ :: _ => false end.
Proof. destruct l; reflexivity. Qed.

(** Unfolding of the monad's combinators in a goal. *)
Ltac monad_unfold :=
  unfold run, try_catch, bind, ret, send, throw, get, modify, param,
         console_log, console_error in *.

(** ** Job lifecycle *)

Section JobLifecycle.

Variable e : env.

Lemma select_open_job_empty (jobId : Z) (w : world) :
  (forall j, In j (jobs w) -> j_id j = jobId -> j_status j <> "open") ->
  filter (fun j => (j_id j =? jobId) && (j_status j =? "open")%string) (jobs w) = [].
Proof.
  intros H. apply filter_empty_iff. intros j Hj.
  destruct (Z.eqb_spec (j_id j) jobId) as [Hid|]; [|reflexivity].
  simpl. apply String.eqb_neq. apply (H j Hj Hid).
Qed.

Lemma select_open_job_found (jobId : Z) (w : world) :
  (exists j, In j (jobs w) /\ j_id j = jobId /\ j_status j = "open") ->
  filter (fun j => (j_id j =? jobId) && (j_status j =? "open")%string) (jobs w) <> [].
Proof.
  intros (j & Hj & Hid & Hst) Hnil.
  rewrite filter_empty_iff in Hnil. specialize (Hnil j Hj).
  rewrite Hid, Hst, Z.eqb_refl, String.eqb_refl in Hnil. discriminate.
Qed.

(** C1. A hire request by a caller whose role is not 'freelancer' is answered
    403 (Forbidden); by a freelancer, when no job with the given id is in
    state 'open', 404 (NotFoundError), whether the id is unknown or the job
    already hired; otherwise 200, and in the jobs table every row with that
    id now has the caller's id as freelancer_id and the status 'in_progress',
    every other row and the other tables being left as they were. *)
Theorem hire_outcomes (user : identity) (jobId : Z) (w : world) :
  (role user <> "freelancer" ->
   run (hire e user jobId) w =
   (Some (mkResponse 403 (JError "Apenas freelancers podem aceitar jobs")), w)) /\
  (role user = "freelancer" ->
   (forall j, In j (jobs w) -> j_id j = jobId -> j_status j <> "open") ->
   run (hire e user jobId) w =
   (Some (mkResponse 404 (JError "Job não disponível")), w)) /\
  (role user = "freelancer" ->
   (exists j, In j (jobs w) /\ j_id j = jobId /\ j_status j = "open") ->
   exists w',
     run (hire e user jobId) w =
     (Some (mkResponse 200 (JMessage "Job aceito com sucesso! Chat liberado.")), w') /\
     users w' = users w /\ messages w' = messages w /\ console w' = console w /\
     forall n j, nth_error (jobs w) n = Some j ->
       nth_error (jobs w') n =
       Some (if j_id j =? jobId then hired (id user) j else j)).
Proof.
  unfold hire, select_open_job, update_job_hired. monad_unfold.
  split; [|split].
  - intros Hrole. apply String.eqb_neq in Hrole. rewrite Hrole. reflexivity.
  - intros Hrole Hnone. rewrite Hrole. simpl.
    rewrite (select_open_job_empty jobId w Hnone). reflexivity.
  - intros Hrole Hsome. rewrite Hrole. simpl.
    apply select_open_job_found in Hsome.
    rewrite length_zero_eqb.
    destruct (filter _ (jobs w)) as [|j0 rest]; [contradiction|].
    eexists. split; [reflexivity|]. simpl. repeat split.
    intros n j Hn. rewrite nth_error_map, Hn. reflexivity.
Qed.

End JobLifecycle.

Lemma hire_outcomes_witness :
  run (hire test_env (mkIdentity 1 "client") 1) (test_world open_job) =
    (Some (mkResponse 403 (JError "Apenas freelancers podem aceitar jobs")), test_world open_job) /\
  run (hire test_env (mkIdentity 2 "freelancer") 1) (test_world hired_job) =
    (Some (mkResponse 404 (JError "Job não disponível")), test_world hired_job) /\
  exists w',
    run (hire test_env (mkIdentity 2 "freelancer") 1) (test_world open_job) =
      (Some (mkResponse 200 (JMessage "Job aceito com sucesso! Chat liberado.")), w') /\
    nth_error (jobs w') 0 = Some hired_job.
Proof.
  split; [|split].
  - apply (hire_outcomes test_env (mkIdentity 1 "client") 1 (test_world open_job)).
    simpl. discriminate.
  - apply (hire_outcomes test_env (mkIdentity 2 "freelancer") 1 (test_world hired_job)).
    + reflexivity.
    + simpl. intros j [<-|[]] _. simpl. discriminate.
  - destruct (hire_outcomes test_env (mkIdentity 2 "freelancer") 1 (test_world open_job))
      as (_ & _ & H).
    destruct H as (w' & Hrun & _ & _ & _ & Hrows).
    + reflexivity.
    + exists open_job. simpl. auto.
    + exists w'. split; [exact Hrun|].
      apply (Hrows 0%nat open_job). reflexivity.
Defined.

(** ** The jobs table under the other handlers *)

Section Frame.

Lemma keeps_jobs_ret {A} (a : A) : keeps_jobs (ret a).
Proof. intros w. split; reflexivity. Qed.

Lemma keeps_jobs_send {A} (r : response) : keeps_jobs (@send A r).
Proof. intros w. split; reflexivity. Qed.

Lemma keeps_jobs_throw {A} (x : exn) : keeps_jobs (@throw A x).
Proof. intros w. split; reflexivity. Qed.

Lemma keeps_jobs_get : keeps_jobs get.
Proof. intros w. split; reflexivity. Qed.

Lemma keeps_jobs_param {A} (v : option A) : keeps_jobs (param v).
Proof. destruct v; [apply keeps_jobs_ret | apply keeps_jobs_throw]. Qed.

Lemma keeps_jobs_modify (f : world -> world) :
  (forall w, jobs (f w) = jobs w /\ auto_jobs (f w) = auto_jobs w) ->
  keeps_jobs (modify f).
Proof. intros H w. apply H. Qed.

Lemma keeps_jobs_bind {A B} (m : M A) (k : A -> M B) :
  keeps_jobs m -> (forall a, keeps_jobs (k a)) -> keeps_jobs (bind m k).
Proof.
  intros Hm Hk w. unfold bind.
  destruct (Hm w) as [Hj Ha]. destruct (m w) as [[a|r|x] w1]; simpl in *.
  - destruct (Hk a w1) as [Hj' Ha']. split; congruence.
  - split; assumption.
  - split; assumption.
Qed.

Lemma keeps_jobs_try_catch {A} (m : M A) (h : exn -> M A) :
  keeps_jobs m -> (forall x, keeps_jobs (h x)) -> keeps_jobs (try_catch m h).
Proof.
  intros Hm Hh w. unfold try_catch.
  destruct (Hm w) as [Hj Ha]. destruct (m w) as [[a|r|x] w1]; simpl in *.
  - split; assumption.
  - split; assumption.
  - destruct (Hh x w1) as [Hj' Ha']. split; congruence.
Qed.

End Frame.

(** Decomposition of a handler into the steps above. *)
Ltac keeps_jobs_step :=
  first
    [ apply keeps_jobs_bind; [|intros ?]
    | apply keeps_jobs_try_catch; [|intros ?]
    | apply keeps_jobs_ret
    | apply keeps_jobs_send
    | apply keeps_jobs_throw
    | apply keeps_jobs_get
    | apply keeps_jobs_param
    | apply keeps_jobs_modify; intros ?; split; reflexivity
    | match goal with
      | |- keeps_jobs (match ?x with _ => _ end) => destruct x
      | |- keeps_jobs (if ?b then _ else _) => destruct b
      end ].

Ltac keeps_jobs_auto := repeat keeps_jobs_step.

Section OtherHandlers.

Variable S : services.
Variable e : env.

Lemma keeps_jobs_register (b : register_body) : keeps_jobs (register S e b).
Proof.
  unfold register, select_users_by_email, bcrypt_hash, insert_user, console_error.
  keeps_jobs_auto.
Qed.

Lemma keeps_jobs_login (b : login_body) : keeps_jobs (login S e b).
Proof.
  unfold login, select_users_by_email, bcrypt_compare, jwt_sign, console_error.
  keeps_jobs_auto.
Qed.

Lemma keeps_jobs_updateProfile (user : identity) (bio : field) (file : option string) :
  keeps_jobs (updateProfile e user bio file).
Proof.
  unfold updateProfile, uploadToCloudinary, update_users_profile, console_error.
  keeps_jobs_auto.
Qed.

Lemma keeps_jobs_sendMessage (user : identity) (b : message_body) :
  keeps_jobs (sendMessage e user b).
Proof.
  unfold sendMessage, select_job_of_participant, insert_message, console_error.
  keeps_jobs_auto.
Qed.

(** The middleware touches no table: it answers itself, or hands over to
    the rest of the route. *)
Lemma authenticateToken_cases (authHeader : field) (next : identity -> M response) (w : world) :
  (authenticateToken S e authHeader next w =
     (Sent (mkResponse 401 (JError "Acesso negado")), w)) \/
  (authenticateToken S e authHeader next w =
     (Sent (mkResponse 403 (JError "Token inválido")), w)) \/
  (exists user, authenticateToken S e authHeader next w = next user w).
Proof.
  unfold authenticateToken.
  destruct (negb (truthy _)); [left; reflexivity|].
  destruct (jwt_verify _ _ _ _) as [err|user].
  - right. left. reflexivity.
  - right. right. exists user. reflexivity.
Qed.

End OtherHandlers.

(** ** The effect of a request on the jobs table *)

Lemma snd_run (m : M response) (w : world) : snd (run m w) = snd (m w).
Proof. unfold run. destruct (m w) as [[r|r|x] w']; reflexivity. Qed.

Lemma keeps_jobs_effect (m : M response) (w : world) :
  keeps_jobs m -> jobs_effect w (snd (run m w)).
Proof.
  intros H. rewrite snd_run. destruct (H w). apply effect_none; assumption.
Qed.

Lemma createJob_effect (e : env) (user : identity) (b : job_body) (w : world) :
  jobs_effect w (snd (run (createJob e user b) w)).
Proof.
  unfold createJob, insert_job. monad_unfold.
  destruct (negb _); [apply effect_none; reflexivity|].
  destruct b as [[t|] [d|] [bu|]]; simpl; try (apply effect_none; reflexivity).
  eapply effect_insert; reflexivity.
Qed.

Lemma hire_effect (e : env) (user : identity) (jobId : Z) (w : world) :
  jobs_effect w (snd (run (hire e user jobId) w)).
Proof.
  unfold hire, select_open_job, update_job_hired. monad_unfold.
  destruct (negb _); [apply effect_none; reflexivity|]. simpl.
  rewrite length_zero_eqb.
  destruct (filter _ (jobs w)) as [|j0 rest] eqn:Hf; [apply effect_none; reflexivity|].
  simpl. apply (effect_assign w _ (id user) jobId); try reflexivity.
  assert (Hin : In j0 (filter (fun j => (j_id j =? jobId) && (j_status j =? "open")%string) (jobs w)))
    by (rewrite Hf; left; reflexivity).
  apply filter_In in Hin. destruct Hin as [Hin Hb].
  apply andb_true_iff in Hb. destruct Hb as [Hid Hst].
  exists j0. repeat split; [assumption | apply Z.eqb_eq; assumption | apply String.eqb_eq; assumption].
Qed.

Lemma serve_effect (S : services) (e : env) (r : request) (w : world) :
  jobs_effect w (serve S e r w).
Proof.
  unfold serve.
  assert (Hauth : forall h next,
            (forall user, jobs_effect w (snd (run (next user) w))) ->
            jobs_effect w (snd (run (authenticateToken S e h next) w))).
  { intros h next Hnext. rewrite snd_run.
    destruct (authenticateToken_cases S e h next w) as [H|[H|[user H]]]; rewrite H.
    - apply effect_none; reflexivity.
    - apply effect_none; reflexivity.
    - rewrite <- snd_run. apply Hnext. }
  destruct r as [b|b|h bio file|h b|h jobId|h b]; simpl.
  - apply keeps_jobs_effect, keeps_jobs_register.
  - apply keeps_jobs_effect, keeps_jobs_login.
  - apply Hauth. intros user. apply keeps_jobs_effect, keeps_jobs_updateProfile.
  - apply Hauth. intros user. apply createJob_effect.
  - apply Hauth. intros user. apply hire_effect.
  - apply Hauth. intros user. apply keeps_jobs_effect, keeps_jobs_sendMessage.
Qed.

(** ** The invariant of the jobs table *)

Lemma unique_key {A} (key : A -> Z) (l : list A) (x y : A) :
  NoDup (map key l) -> In x l -> In y l -> key x = key y -> x = y.
Proof.
  induction l as [|a l IH]; simpl; [intros _ []|].
  intros Hnd Hx Hy Hk. inversion Hnd as [|k ks Hnot Hnd']; subst.
  destruct Hx as [<-|Hx], Hy as [<-|Hy].
  - reflexivity.
  - exfalso. apply Hnot. rewrite Hk. apply in_map. assumption.
  - exfalso. apply Hnot. rewrite <- Hk. apply in_map. assumption.
  - apply IH; assumption.
Qed.

Lemma NoDup_snoc {A} (l : list A) (a : A) :
  NoDup l -> ~ In a l -> NoDup (l ++ [a]).
Proof.
  induction l as [|x l IH]; simpl; intros Hnd Hnot.
  - constructor; [intros [] | constructor].
  - inversion Hnd as [|y ys Hx Hl]; subst. constructor.
    + intros Hin. apply in_app_or in Hin. destruct Hin as [Hin|[<-|[]]].
      * contradiction.
      * apply Hnot. left. reflexivity.
    + apply IH; [assumption|]. intros Hin. apply Hnot. right. assumption.
Qed.

Lemma assign_job_row_id (f jobId : Z) (j : job) : j_id (assign_job_row f jobId j) = j_id j.
Proof. unfold assign_job_row. destruct (j_id j =? jobId); reflexivity. Qed.

Lemma assign_job_row_consistent (f jobId : Z) (j : job) :
  job_consistent j -> job_consistent (assign_job_row f jobId j).
Proof.
  intros H. unfold assign_job_row. destruct (j_id j =? jobId); [|assumption].
  right. simpl. split; [reflexivity | exists f; reflexivity].
Qed.

Lemma open_not_assigned (j : job) (f : Z) :
  job_consistent j -> j_status j = "open" -> j_freelancer_id j = Some f -> False.
Proof.
  intros [[_ Hn]|[Hs _]] Hopen Hf.
  - rewrite Hn in Hf. discriminate.
  - rewrite Hs in Hopen. discriminate.
Qed.

Lemma jobs_invariant_initial : jobs_invariant initial.
Proof. repeat split; simpl; constructor. Qed.

Lemma jobs_invariant_effect (w w' : world) :
  jobs_effect w w' -> jobs_invariant w -> jobs_invariant w'.
Proof.
  intros Heff (Hc & Hnd & Hb). unfold jobs_invariant.
  destruct Heff as [Hj Ha | c t d b Hj Ha | f jobId _ Hj Ha]; rewrite Hj, Ha.
  - repeat split; assumption.
  - repeat split.
    + apply Forall_app. split; [assumption|].
      constructor; [|constructor]. left. split; reflexivity.
    + rewrite map_app. simpl. apply NoDup_snoc; [assumption|].
      intros Hin. apply in_map_iff in Hin.
      destruct Hin as (j & Hid & Hin). rewrite Forall_forall in Hb.
      specialize (Hb j Hin). lia.
    + apply Forall_app. split.
      * apply Forall_impl with (P := fun j => j_id j < auto_jobs w); [intros; lia | assumption].
      * constructor; [simpl; lia | constructor].
  - repeat split.
    + apply Forall_map. apply Forall_impl with (P := job_consistent); [|assumption].
      intros j. apply assign_job_row_consistent.
    + rewrite map_map. erewrite map_ext; [exact Hnd|]. intros j. apply assign_job_row_id.
    + apply Forall_map. apply Forall_impl with (P := fun j => j_id j < auto_jobs w); [|assumption].
      intros j. rewrite assign_job_row_id. trivial.
Qed.

(** An assigned row is never written again. *)
Lemma assigned_row_persists (w w' : world) (j : job) (f : Z) :
  jobs_effect w w' -> jobs_invariant w ->
  In j (jobs w) -> j_freelancer_id j = Some f -> In j (jobs w').
Proof.
  intros Heff (Hc & Hnd & _) Hin Hf.
  destruct Heff as [Hj _ | c t d b Hj _ | f' jobId (j0 & Hin0 & Hid0 & Hopen0) Hj _]; rewrite Hj.
  - assumption.
  - apply in_or_app. left. assumption.
  - replace j with (assign_job_row f' jobId j); [apply in_map; assumption|].
    unfold assign_job_row. destruct (Z.eqb_spec (j_id j) jobId) as [Hid|]; [|reflexivity].
    exfalso. assert (j = j0) by (apply (unique_key j_id (jobs w)); congruence). subst j0.
    rewrite Forall_forall in Hc. apply (open_not_assigned j f (Hc j Hin) Hopen0 Hf).
Qed.

Lemma steps_invariant (S : services) (w w' : world) :
  steps S w w' -> jobs_invariant w -> jobs_invariant w'.
Proof.
  induction 1 as [|w1 e r _ IH]; intros Hinv; [assumption|].
  apply (jobs_invariant_effect w1); [apply serve_effect | apply IH; assumption].
Qed.

Lemma steps_assigned_row (S : services) (w w' : world) (j : job) (f : Z) :
  steps S w w' -> jobs_invariant w ->
  In j (jobs w) -> j_freelancer_id j = Some f -> In j (jobs w').
Proof.
  induction 1 as [|w1 e r Hsteps IH]; intros Hinv Hin Hf; [assumption|].
  apply (assigned_row_persists w1 _ j f).
  - apply serve_effect.
  - apply (steps_invariant S w); assumption.
  - apply IH; assumption.
  - assumption.
Qed.

Lemma hire_success_rows (e : env) (user : identity) (jobId : Z) (w w' : world) (r : response) :
  run (hire e user jobId) w = (Some r, w') -> status r = 200 ->
  jobs w' = map (assign_job_row (id user) jobId) (jobs w).
Proof.
  unfold hire, select_open_job, update_job_hired. monad_unfold.
  destruct (negb _); [intros [= <- <-]; discriminate|]. simpl.
  rewrite length_zero_eqb.
  destruct (filter _ (jobs w)) as [|j0 rest]; simpl.
  - intros [= <- <-]; discriminate.
  - intros [= <- <-] _. reflexivity.
Qed.

Lemma reachable_invariant (S : services) (w : world) :
  reachable S w -> jobs_invariant w.
Proof.
  intros H. apply (steps_invariant S initial); [assumption | apply jobs_invariant_initial].
Qed.

(** C2. In every world the server reaches from the empty database by
    handling requests one after the other: a job whose status is 'open'
    has no freelancer_id, and a job with a freelancer_id is 'in_progress';
    after a hire request answered with success the job of that id is
    'in_progress' with a freelancer_id; and a job that has a freelancer
    keeps that row through every later request, so its status never goes
    back and no second freelancer is ever assigned to it. *)
Theorem job_lifecycle_invariant (S : services) (w : world) :
  reachable S w ->
  (forall j, In j (jobs w) -> j_status j = "open" -> j_freelancer_id j = None) /\
  (forall j f, In j (jobs w) -> j_freelancer_id j = Some f -> j_status j = "in_progress") /\
  (forall e authorization jobId w',
     run (route S e (PostHire authorization jobId)) w =
       (Some (mkResponse 200 (JMessage "Job aceito com sucesso! Chat liberado.")), w') ->
     forall j', In j' (jobs w') -> j_id j' = jobId ->
       j_status j' = "in_progress" /\ exists f, j_freelancer_id j' = Some f) /\
  (forall w' j f, steps S w w' -> In j (jobs w) -> j_freelancer_id j = Some f ->
     forall j', In j' (jobs w') -> j_id j' = j_id j ->
       j_freelancer_id j' = Some f /\ j_status j' = "in_progress").
Proof.
  intros Hreach. pose proof (reachable_invariant S w Hreach) as Hinv.
  assert (Hshape : forall j, In j (jobs w) -> job_consistent j).
  { destruct Hinv as (Hc & _). rewrite Forall_forall in Hc. exact Hc. }
  assert (Hassigned : forall j f, In j (jobs w) -> j_freelancer_id j = Some f ->
                                  j_status j = "in_progress").
  { intros j f Hin Hf. destruct (Hshape j Hin) as [[_ Hn]|[Hs _]]; [congruence | assumption]. }
  split; [|split; [|split]].
  - intros j Hin Hopen. destruct (Hshape j Hin) as [[_ Hn]|[Hs _]]; [assumption|].
    rewrite Hs in Hopen. discriminate.
  - exact Hassigned.
  - intros e h jobId w' Hrun j' Hin' Hid'. simpl in Hrun.
    assert (Hnext : exists user, run (hire e user jobId) w =
              (Some (mkResponse 200 (JMessage "Job aceito com sucesso! Chat liberado.")), w')).
    { unfold run in Hrun |- *.
      destruct (authenticateToken_cases S e h (fun user => hire e user jobId) w)
        as [H|[H|[user H]]]; rewrite H in Hrun.
      - discriminate.
      - discriminate.
      - exists user. exact Hrun. }
    destruct Hnext as [user Hhire].
    apply hire_success_rows in Hhire; [|reflexivity].
    rewrite Hhire in Hin'. apply in_map_iff in Hin'. destruct Hin' as (j & <- & Hin).
    rewrite assign_job_row_id in Hid'. unfold assign_job_row.
    rewrite Hid', Z.eqb_refl. simpl. split; [reflexivity | exists (id user); reflexivity].
  - intros w' j f Hsteps Hin Hf j' Hin' Hid'.
    assert (Hkept : In j (jobs w')) by (apply (steps_assigned_row S w w' j f); assumption).
    assert (Hinv' : jobs_invariant w') by (apply (steps_invariant S w); assumption).
    destruct Hinv' as (_ & Hnd & _).
    assert (j' = j) by (apply (unique_key j_id (jobs w')); assumption). subst j'.
    split; [assumption | apply (Hassigned j f); assumption].
Qed.

Lemma hired_world_reachable : reachable test_services hired_world.
Proof. unfold reachable, hired_world, posted_world. do 2 apply steps_serve. apply steps_refl. Qed.

Lemma job_lifecycle_invariant_witness :
  jobs hired_world = [hired_job] /\
  (forall j f, In j (jobs hired_world) -> j_freelancer_id j = Some f ->
               j_status j = "in_progress") /\
  (forall w' j f, steps test_services hired_world w' ->
     In j (jobs hired_world) -> j_freelancer_id j = Some f ->
     forall j', In j' (jobs w') -> j_id j' = j_id j ->
       j_freelancer_id j' = Some f /\ j_status j' = "in_progress").
Proof.
  split; [reflexivity|].
  destruct (job_lifecycle_invariant test_services hired_world hired_world_reachable)
    as (_ & Hassigned & _ & Hkept).
  split; [exact Hassigned | exact Hkept].
Defined.

(** ** Registration and login *)

Section Auth.

Variable S : services.
Variable e : env.

Lemma no_user_with_email (email : string) (w : world) :
  (forall u, In u (users w) -> u_email u <> email) ->
  filter (fun u => (u_email u =? email)%string) (users w) = [].
Proof.
  intros H. apply filter_empty_iff. intros u Hu. apply String.eqb_neq. apply H. assumption.
Qed.

Lemma some_user_with_email (email : string) (w : world) :
  (exists u, In u (users w) /\ u_email u = email) ->
  exists user rest, filter (fun u => (u_email u =? email)%string) (users w) = user :: rest.
Proof.
  intros (u & Hin & Hmail).
  destruct (filter _ (users w)) as [|user rest] eqn:Hf; [|exists user, rest; reflexivity].
  rewrite filter_empty_iff in Hf. specialize (Hf u Hin). simpl in Hf.
  rewrite Hmail, String.eqb_refl in Hf. discriminate.
Qed.

(** C3. A login with an email no user row has is answered 400 'Usuário não
    encontrado' (NotFoundError); with the email of a user whose stored hash
    the password does not match, 400 'Senha incorreta'
    (InvalidCredentialError); otherwise, on a server that has its signing
    secret, 200 with the token signed over {id, role} of that user,
    expiring 24 hours after its issue, and the projection {id, name, role,
    avatar} of the user.  None of these cases changes the world.  That
    token, once parsed back, verifies to {id, role} until the 24 hours are
    over and is refused as expired from then on.  On a server without a
    signing secret the signing throws, and the login that got that far is
    answered 500 'Erro no servidor durante o login', with a line on the
    console and no other change. *)
Theorem login_outcomes (email password : string) (w : world) :
  ((forall u, In u (users w) -> u_email u <> email) ->
   run (login S e (mkLoginBody (Some email) (Some password))) w =
   (Some (mkResponse 400 (JError "Usuário não encontrado")), w)) /\
  (forall user,
     find (fun u => (u_email u =? email)%string) (users w) = Some user ->
     (bcrypt_matches S password (u_password user) = false ->
      run (login S e (mkLoginBody (Some email) (Some password))) w =
      (Some (mkResponse 400 (JError "Senha incorreta")), w)) /\
     (bcrypt_matches S password (u_password user) = true ->
      JWT_SECRET S <> "" ->
      exists tok,
        run (login S e (mkLoginBody (Some email) (Some password))) w =
        (Some (mkResponse 200
                 (JSession tok
                    (mkPublic (u_id user) (u_name user) (u_role user) (u_avatar_url user)))),
         w) /\
        tok = jwt_encode S (mkToken (u_id user) (u_role user) (now e)
                                    (now e + 86400) (JWT_SECRET S)) /\
        (jwt_decode S tok =
           Some (mkToken (u_id user) (u_role user) (now e) (now e + 86400) (JWT_SECRET S)) ->
         forall e',
           jwt_verify S e' tok (JWT_SECRET S) =
           if now e' <? now e + 86400
           then inr (mkIdentity (u_id user) (u_role user))
           else inl "TokenExpiredError")) /\
     (bcrypt_matches S password (u_password user) = true ->
      JWT_SECRET S = "" ->
      exists w',
        run (login S e (mkLoginBody (Some email) (Some password))) w =
        (Some (mkResponse 500 (JError "Erro no servidor durante o login")), w') /\
        database w' = database w /\
        console w' =
          (console w ++ ["Erro no Login: Error: secretOrPrivateKey must have a value"])%list)).
Proof.
  unfold login, select_users_by_email, bcrypt_compare, jwt_sign. monad_unfold. simpl.
  split.
  - intros Hnone. rewrite (no_user_with_email email w Hnone). reflexivity.
  - intros user Hfind. destruct (filter_cons_find _ _ _ Hfind) as [rest Hf].
    rewrite Hf. split; [|split].
    + intros Hbad. rewrite Hbad. reflexivity.
    + intros Hgood Hsecret. rewrite Hgood. simpl.
      apply String.eqb_neq in Hsecret. rewrite Hsecret. simpl.
      eexists. split; [reflexivity|].
      split; [reflexivity|].
      intros Hdec e'. unfold jwt_verify. change expiresIn_24h with 86400 in *.
      rewrite Hdec. simpl. rewrite String.eqb_refl. simpl.
      destruct (Z.leb_spec (now e + 86400) (now e')), (Z.ltb_spec (now e') (now e + 86400));
        try reflexivity; lia.
    + intros Hgood Hsecret. rewrite Hgood, Hsecret. simpl.
      eexists. split; [reflexivity|]. split; reflexivity.
Qed.

End Auth.

Lemma login_outcomes_witness :
  run (login test_services test_env (mkLoginBody (Some "eve@test") (Some "hunter2")))
      (test_world open_job) =
    (Some (mkResponse 400 (JError "Usuário não encontrado")), test_world open_job) /\
  run (login test_services test_env (mkLoginBody (Some "ana@test") (Some "wrong")))
      (test_world open_job) =
    (Some (mkResponse 400 (JError "Senha incorreta")), test_world open_job) /\
  (exists tok,
     run (login test_services test_env (mkLoginBody (Some "ana@test") (Some "hunter2")))
         (test_world open_job) =
     (Some (mkResponse 200 (JSession tok (mkPublic 1 "Ana" "client" None))),
      test_world open_job) /\
     tok = "ana.jwt") /\
  (exists w',
     run (login unconfigured_services test_env (mkLoginBody (Some "ana@test") (Some "hunter2")))
         (test_world open_job) =
     (Some (mkResponse 500 (JError "Erro no servidor durante o login")), w') /\
     users w' = [ana; bia]).
Proof.
  split; [|split; [|split]].
  - apply (login_outcomes test_services test_env "eve@test" "hunter2" (test_world open_job)).
    simpl. intros u [<-|[<-|[]]]; simpl; discriminate.
  - destruct (login_outcomes test_services test_env "ana@test" "wrong" (test_world open_job))
      as [_ H].
    destruct (H ana eq_refl) as [Hbad _]. apply Hbad. reflexivity.
  - destruct (login_outcomes test_services test_env "ana@test" "hunter2" (test_world open_job))
      as [_ H].
    destruct (H ana eq_refl) as (_ & Hok & _).
    destruct Hok as (tok & Hrun & Htok & _); [reflexivity | simpl; discriminate |].
    exists tok. split; [exact Hrun | exact Htok].
  - destruct (login_outcomes unconfigured_services test_env "ana@test" "hunter2"
                (test_world open_job)) as [_ H].
    destruct (H ana eq_refl) as (_ & _ & Hnone).
    destruct (Hnone eq_refl eq_refl) as (w' & Hrun & Hdb & _).
    exists w'. split; [exact Hrun|].
    unfold database in Hdb. injection Hdb as Hu _ _. exact Hu.
Defined.

Section Registration.

Variable S : services.
Variable e : env.

(** C4, amended. A registration with name, email and password supplied:
    when a user row has that email it is answered 400 'Email já cadastrado'
    (ConflictError) and nothing changes; otherwise it is answered 201 with
    the id of the row it appends to the users table, whose credential is the
    bcrypt digest of the password under the drawn salt at cost 10, and whose
    role is the given role when that is a non-empty string, 'freelancer'
    when the role is missing or the empty string. *)
Theorem register_outcomes (name email password : string) (role : field) (w : world) :
  ((exists u, In u (users w) /\ u_email u = email) ->
   run (register S e (mkRegisterBody (Some name) (Some email) (Some password) role)) w =
   (Some (mkResponse 400 (JError "Email já cadastrado")), w)) /\
  ((forall u, In u (users w) -> u_email u <> email) ->
   exists w' storedRole,
     run (register S e (mkRegisterBody (Some name) (Some email) (Some password) role)) w =
     (Some (mkResponse 201 (JUserCreated "Usuário criado com sucesso!" (auto_users w))), w') /\
     users w' =
       (users w ++ [mkUser (auto_users w) name email
                           (bcrypt_digest S password (salt e) 10) storedRole None None])%list /\
     (forall r, role = Some r -> r <> "" -> storedRole = r) /\
     (role = None \/ role = Some "" -> storedRole = "freelancer")).
Proof.
  unfold register, select_users_by_email, bcrypt_hash, insert_user, sendEmailBrevo, axios_post.
  monad_unfold. simpl. split.
  - intros Hsome. destruct (some_user_with_email email w Hsome) as (u0 & rest & Hf).
    rewrite Hf. reflexivity.
  - intros Hnone. rewrite (no_user_with_email email w Hnone). simpl.
    exists (snd (run (register S e (mkRegisterBody (Some name) (Some email) (Some password) role)) w)).
    exists (if truthy role then show role else "freelancer").
    unfold register, select_users_by_email, bcrypt_hash, insert_user, sendEmailBrevo, axios_post.
    monad_unfold. simpl. rewrite (no_user_with_email email w Hnone). simpl.
    destruct (mail e) as [data|resp msg]; simpl.
    + repeat split.
      * intros r -> Hr. simpl. apply String.eqb_neq in Hr. rewrite Hr. reflexivity.
      * intros [->| ->]; reflexivity.
    + repeat split.
      * intros r -> Hr. simpl. apply String.eqb_neq in Hr. rewrite Hr. reflexivity.
      * intros [->| ->]; reflexivity.
Qed.

(** C10. A registration without a password, for an email no user row has,
    is not refused as invalid input: the hashing throws, the handler's
    catch-all answers 500 'Erro no servidor durante o registro', and no row
    is inserted (the users table, its counter and the other tables are as
    before; no e-mail is posted). *)
Theorem register_without_password (name : field) (email : string) (role : field) (w : world) :
  (forall u, In u (users w) -> u_email u <> email) ->
  exists w',
    run (register S e (mkRegisterBody name (Some email) None role)) w =
    (Some (mkResponse 500 (JError "Erro no servidor durante o registro")), w') /\
    users w' = users w /\ auto_users w' = auto_users w /\
    database w' = database w /\ outbox w' = outbox w /\
    console w' =
      (console w ++ ["Erro no Registro: Error: Illegal arguments: undefined, number"])%list.
Proof.
  intros Hnone.
  unfold register, select_users_by_email, bcrypt_hash. monad_unfold. simpl.
  rewrite (no_user_with_email email w Hnone). simpl.
  eexists. split; [reflexivity|]. repeat split.
Qed.

(** C8. Whatever the e-mail API answers, a registration gives the caller
    the same response and leaves the same database: with a failing send and
    with a delivered one the response and the three tables are equal.  When
    the registration gets as far as the send (it is answered 201) and the
    send fails, the failure is written to the console and nothing else. *)
Theorem register_mail_failure_swallowed (b : register_body) (w : world)
    (failure : option string) (message data : string) :
  fst (run (register S (with_mail e (MailFailed failure message)) b) w) =
  fst (run (register S (with_mail e (MailDelivered data)) b) w) /\
  database (snd (run (register S (with_mail e (MailFailed failure message)) b) w)) =
  database (snd (run (register S (with_mail e (MailDelivered data)) b) w)) /\
  (forall userId,
     fst (run (register S (with_mail e (MailFailed failure message)) b) w) =
     Some (mkResponse 201 (JUserCreated "Usuário criado com sucesso!" userId)) ->
     console (snd (run (register S (with_mail e (MailFailed failure message)) b) w)) =
     (console w ++ [("Erro ao enviar email Brevo: " ++
                     match failure with Some detail => detail | None => message end)%string])%list).
Proof.
  unfold register, select_users_by_email, bcrypt_hash, insert_user, sendEmailBrevo, axios_post.
  monad_unfold. destruct b as [[name|] [email|] [password|] role]; simpl;
    try (repeat split; intros; discriminate);
    destruct (filter _ (users w)) as [|u0 rest]; simpl;
    repeat split; intros; try discriminate; destruct failure; reflexivity.
Qed.

End Registration.

Lemma register_outcomes_witness :
  run (register test_services test_env
         (mkRegisterBody (Some "Eve") (Some "ana@test") (Some "pw") (Some "client")))
      (test_world open_job) =
    (Some (mkResponse 400 (JError "Email já cadastrado")), test_world open_job) /\
  exists w' storedRole,
    run (register test_services test_env
           (mkRegisterBody (Some "Eve") (Some "eve@test") (Some "pw") (Some "client")))
        (test_world open_job) =
      (Some (mkResponse 201 (JUserCreated "Usuário criado com sucesso!" 3)), w') /\
    users w' = [ana; bia; mkUser 3 "Eve" "eve@test" "pepper$pw" storedRole None None] /\
    storedRole = "client".
Proof.
  split.
  - apply (register_outcomes test_services test_env "Eve" "ana@test" "pw" (Some "client")
             (test_world open_job)).
    exists ana. split; [left; reflexivity | reflexivity].
  - destruct (register_outcomes test_services test_env "Eve" "eve@test" "pw" (Some "client")
                (test_world open_job)) as [_ H].
    destruct H as (w' & storedRole & Hrun & Husers & Hrole & _).
    + simpl. intros u [<-|[<-|[]]]; simpl; discriminate.
    + exists w', storedRole. split; [exact Hrun|]. split; [exact Husers|].
      apply (Hrole "client"); [reflexivity | discriminate].
Defined.

(** C4 as stated fails on a role given as the empty string: the row stored
    for it has the role 'freelancer', not the given role. *)
Lemma register_empty_role_counterexample :
  exists w',
    run (register test_services test_env
           (mkRegisterBody (Some "Eve") (Some "eve@test") (Some "pw") (Some "")))
        initial =
      (Some (mkResponse 201 (JUserCreated "Usuário criado com sucesso!" 1)), w') /\
    map u_role (users w') = ["freelancer"] /\
    ("freelancer" =? "")%string = false.
Proof. eexists. repeat split. Qed.

Lemma register_without_password_witness :
  exists w',
    run (register test_services test_env
           (mkRegisterBody (Some "Eve") (Some "eve@test") None (Some "client")))
        (test_world open_job) =
      (Some (mkResponse 500 (JError "Erro no servidor durante o registro")), w') /\
    users w' = [ana; bia].
Proof.
  destruct (register_without_password test_services test_env (Some "Eve") "eve@test"
              (Some "client") (test_world open_job)) as (w' & Hrun & Husers & _).
  - simpl. intros u [<-|[<-|[]]]; simpl; discriminate.
  - exists w'. split; [exact Hrun | exact Husers].
Defined.

Lemma register_mail_failure_swallowed_witness :
  fst (run (register test_services (with_mail test_env (MailFailed None "ETIMEDOUT"))
              (mkRegisterBody (Some "Eve") (Some "eve@test") (Some "pw") None))
           initial) =
    Some (mkResponse 201 (JUserCreated "Usuário criado com sucesso!" 1)) /\
  console (snd (run (register test_services (with_mail test_env (MailFailed None "ETIMEDOUT"))
                       (mkRegisterBody (Some "Eve") (Some "eve@test") (Some "pw") None))
                    initial)) =
    ["Erro ao enviar email Brevo: ETIMEDOUT"].
Proof.
  split; [reflexivity|].
  destruct (register_mail_failure_swallowed test_services test_env
              (mkRegisterBody (Some "Eve") (Some "eve@test") (Some "pw") None)
              initial None "ETIMEDOUT" "queued") as (_ & _ & Hlog).
  apply (Hlog 1). reflexivity.
Defined.

(** ** The access-control middleware *)

Lemma split_space_one_piece (s : string) :
  contains_space s = false -> split_space s = [s].
Proof.
  induction s as [|c rest IH]; simpl; [reflexivity|].
  destruct (Ascii.eqb c " "); simpl; [discriminate|].
  intros H. rewrite (IH H). reflexivity.
Qed.

Lemma split_space_bearer (tok : string) :
  contains_space tok = false -> split_space ("Bearer " ++ tok) = ["Bearer"; tok].
Proof. intros H. simpl. rewrite (split_space_one_piece tok H). reflexivity. Qed.

Lemma truthy_nonempty (s : string) : s <> "" -> truthy (Some s) = true.
Proof. intros H. simpl. apply String.eqb_neq in H. rewrite H. reflexivity. Qed.

Section Middleware.

Variable S : services.
Variable e : env.

Lemma authenticateToken_token (authHeader : field) (next : identity -> M response) (w : world) :
  run (authenticateToken S e authHeader next) w =
  if truthy (token_of_header authHeader)
  then match jwt_verify S e (show (token_of_header authHeader)) (JWT_SECRET S) with
       | inl _ => (Some (mkResponse 403 (JError "Token inválido")), w)
       | inr user => run (next user) w
       end
  else (Some (mkResponse 401 (JError "Acesso negado")), w).
Proof.
  unfold authenticateToken, token_of_header.
  destruct authHeader as [h|]; [|reflexivity].
  destruct (truthy (Some h)) eqn:Hh.
  - simpl show at 1. destruct (truthy (nth_error (split_space h) 1)); simpl; [|reflexivity].
    destruct (jwt_verify _ _ _ _); reflexivity.
  - rewrite Hh. simpl in Hh. apply negb_false_iff, String.eqb_eq in Hh. subst h. reflexivity.
Qed.

(** C5. The middleware answers 401 'Acesso negado' (Unauthenticated) when
    the authorization header carries no token: the header is missing, or
    has no second word, or an empty one.  When it carries a token, it
    answers 403 'Token inválido' (Forbidden) if the token is not well
    formed, if its signature is not under the server's secret, or if it has
    expired, as every token of 24-hour validity has once 24 hours have
    passed since its issue; otherwise it runs the rest of the route with
    {id, role} decoded from the token as [req.user].  The middleware itself
    changes nothing.  The token of a header 'Bearer <token>' is <token>. *)
Theorem authenticateToken_contract (next : identity -> M response) (w : world) :
  (forall authHeader, truthy (token_of_header authHeader) = false ->
     run (authenticateToken S e authHeader next) w =
       (Some (mkResponse 401 (JError "Acesso negado")), w)) /\
  (forall authHeader tok, token_of_header authHeader = Some tok -> tok <> "" ->
     (jwt_decode S tok = None ->
      run (authenticateToken S e authHeader next) w =
        (Some (mkResponse 403 (JError "Token inválido")), w)) /\
     (forall t, jwt_decode S tok = Some t ->
        (t_key t <> JWT_SECRET S ->
         run (authenticateToken S e authHeader next) w =
           (Some (mkResponse 403 (JError "Token inválido")), w)) /\
        (t_exp t <= now e ->
         run (authenticateToken S e authHeader next) w =
           (Some (mkResponse 403 (JError "Token inválido")), w)) /\
        (t_exp t = t_iat t + 86400 -> t_iat t + 86400 <= now e ->
         run (authenticateToken S e authHeader next) w =
           (Some (mkResponse 403 (JError "Token inválido")), w)) /\
        (t_key t = JWT_SECRET S -> now e < t_exp t ->
         run (authenticateToken S e authHeader next) w =
           run (next (mkIdentity (t_id t) (t_role t))) w))) /\
  token_of_header None = None /\
  (forall scheme, contains_space scheme = false -> token_of_header (Some scheme) = None) /\
  token_of_header (Some "Bearer ") = Some "" /\
  (forall tok, contains_space tok = false ->
     token_of_header (Some ("Bearer " ++ tok)) = Some tok).
Proof.
  split; [|split; [|split; [reflexivity | split; [|split; [reflexivity|]]]]].
  - intros h Hnone. rewrite authenticateToken_token, Hnone. reflexivity.
  - intros h tok Htok Hne.
    assert (Hrun : run (authenticateToken S e h next) w =
              match jwt_verify S e tok (JWT_SECRET S) with
              | inl _ => (Some (mkResponse 403 (JError "Token inválido")), w)
              | inr user => run (next user) w
              end).
    { rewrite authenticateToken_token, Htok, (truthy_nonempty tok Hne). reflexivity. }
    rewrite Hrun. unfold jwt_verify. split.
    + intros Hdec. rewrite Hdec. reflexivity.
    + intros t Hdec. rewrite Hdec.
      assert (Hexpired : t_exp t <= now e ->
                (if negb (t_key t =? JWT_SECRET S)%string
                 then inl "JsonWebTokenError"
                 else if t_exp t <=? now e then inl "TokenExpiredError"
                      else inr (mkIdentity (t_id t) (t_role t))) =
                inl (if negb (t_key t =? JWT_SECRET S)%string
                     then "JsonWebTokenError" else "TokenExpiredError")).
      { intros Hexp. destruct (negb _); [reflexivity|].
        destruct (Z.leb_spec (t_exp t) (now e)); [reflexivity | lia]. }
      split; [|split; [|split]].
      * intros Hkey. apply String.eqb_neq in Hkey. rewrite Hkey. reflexivity.
      * intros Hexp. rewrite (Hexpired Hexp). reflexivity.
      * intros Hday Hold. rewrite Hexpired by lia. reflexivity.
      * intros Hkey Hfresh. rewrite Hkey, String.eqb_refl. simpl.
        destruct (Z.leb_spec (t_exp t) (now e)); [lia | reflexivity].
  - intros scheme Hsp. simpl. rewrite (split_space_one_piece scheme Hsp). reflexivity.
  - intros tok Hsp. unfold token_of_header. rewrite (split_space_bearer tok Hsp). reflexivity.
Qed.

End Middleware.

Lemma authenticateToken_contract_witness :
  run (authenticateToken test_services test_env (Some "Bearer") echo_role) initial =
    (Some (mkResponse 401 (JError "Acesso negado")), initial) /\
  run (authenticateToken test_services test_env (Some "Bearer forged.jwt") echo_role) initial =
    (Some (mkResponse 403 (JError "Token inválido")), initial) /\
  run (authenticateToken test_services test_env (Some "Bearer eve.jwt") echo_role) initial =
    (Some (mkResponse 403 (JError "Token inválido")), initial) /\
  run (authenticateToken test_services late_env (Some "Bearer ana.jwt") echo_role) initial =
    (Some (mkResponse 403 (JError "Token inválido")), initial) /\
  run (authenticateToken test_services test_env (Some "Bearer ana.jwt") echo_role) initial =
    (Some (mkResponse 200 (JText "client")), initial).
Proof.
  pose proof (authenticateToken_contract test_services test_env echo_role initial) as Hnow.
  pose proof (authenticateToken_contract test_services late_env echo_role initial) as Hlate.
  destruct Hnow as (Hnone & Htok & _).
  destruct Hlate as (_ & Htok_late & _).
  split; [apply (Hnone (Some "Bearer")); reflexivity|].
  split.
  { destruct (Htok (Some "Bearer forged.jwt") "forged.jwt") as [Hbad _];
      [reflexivity | discriminate |].
    apply Hbad. reflexivity. }
  split.
  { destruct (Htok (Some "Bearer eve.jwt") "eve.jwt") as [_ Hdec];
      [reflexivity | discriminate |].
    destruct (Hdec eve_token eq_refl) as (Hkey & _). apply Hkey. simpl. discriminate. }
  split.
  { destruct (Htok_late (Some "Bearer ana.jwt") "ana.jwt") as [_ Hdec];
      [reflexivity | discriminate |].
    destruct (Hdec ana_token eq_refl) as (_ & _ & Hold & _).
    apply Hold; [reflexivity | simpl; lia]. }
  destruct (Htok (Some "Bearer ana.jwt") "ana.jwt") as [_ Hdec];
    [reflexivity | discriminate |].
  destruct (Hdec ana_token eq_refl) as (_ & _ & _ & Hok).
  apply Hok; [reflexivity | simpl; lia].
Defined.

(** ** Messaging *)

Lemma filter_unique_key {A} (key : A -> Z) (f : A -> bool) (l : list A) (x : A) :
  NoDup (map key l) -> In x l -> f x = true ->
  (forall y, In y l -> f y = true -> key y = key x) ->
  filter f l = [x].
Proof.
  induction l as [|a l IH]; simpl; [intros _ []|].
  intros Hnd Hin Hfx Hkey. inversion Hnd as [|k ks Hnot Hnd']; subst.
  assert (Hrest : forall y, In y l -> f y = true -> key y = key x)
    by (intros y Hy; apply Hkey; right; assumption).
  destruct Hin as [->|Hin].
  - rewrite Hfx. f_equal. apply filter_empty_iff. intros y Hy.
    destruct (f y) eqn:Hfy; [|reflexivity].
    exfalso. apply Hnot. rewrite <- (Hrest y Hy Hfy). apply in_map. assumption.
  - destruct (f a) eqn:Hfa.
    + exfalso. apply Hnot. rewrite (Hkey a (or_introl eq_refl) Hfa). apply in_map. assumption.
    + apply IH; assumption.
Qed.

Section Messaging.

Variable e : env.

(** The WHERE clause of the participant query. *)
Lemma participant_query_empty (jobId who : Z) (w : world) :
  (forall j, In j (jobs w) -> j_id j = jobId ->
             j_client_id j <> who /\ j_freelancer_id j <> Some who) ->
  filter (fun j => (j_id j =? jobId) &&
                   ((j_client_id j =? who) || sql_eq_null (j_freelancer_id j) who))
         (jobs w) = [].
Proof.
  intros H. apply filter_empty_iff. intros j Hj.
  destruct (Z.eqb_spec (j_id j) jobId) as [Hid|]; [|reflexivity]. simpl.
  destruct (H j Hj Hid) as [Hc Hf].
  apply Z.eqb_neq in Hc. rewrite Hc. simpl.
  destruct (j_freelancer_id j) as [f|]; simpl; [|reflexivity].
  apply Z.eqb_neq. intros ->. apply Hf. reflexivity.
Qed.

Lemma participant_query_one (jobId who : Z) (w : world) (j : job) :
  NoDup (map j_id (jobs w)) -> In j (jobs w) -> j_id j = jobId ->
  j_client_id j = who \/ j_freelancer_id j = Some who ->
  filter (fun j => (j_id j =? jobId) &&
                   ((j_client_id j =? who) || sql_eq_null (j_freelancer_id j) who))
         (jobs w) = [j].
Proof.
  intros Hnd Hin Hid Hpart. apply (filter_unique_key j_id); try assumption.
  - rewrite Hid, Z.eqb_refl. simpl. destruct Hpart as [-> | ->]; simpl.
    + rewrite Z.eqb_refl. reflexivity.
    + rewrite Z.eqb_refl. apply orb_true_r.
  - intros y _ Hy. apply andb_true_iff in Hy. destruct Hy as [Hy _].
    apply Z.eqb_eq in Hy. congruence.
Qed.

(** C6. With job ids unique in the table, a message sent on a job by a
    user who is neither the client nor the assigned freelancer of a job of
    that id is answered 403 'Permissão negada' (Forbidden); sent by the
    client of a job that has no freelancer yet, 400 (ValidationError);
    otherwise 201, and exactly one row is appended to the messages table,
    from the sender to the other participant: the freelancer when the sender
    is the client, the client otherwise.  The rows already there, the users
    and the jobs are unchanged.  (User ids are auto-increment keys, never 0.) *)
Theorem sendMessage_outcomes (user : identity) (jobId : Z) (content : string)
    (receiverId : option Z) (w : world) :
  NoDup (map j_id (jobs w)) ->
  ((forall j, In j (jobs w) -> j_id j = jobId ->
              j_client_id j <> id user /\ j_freelancer_id j <> Some (id user)) ->
   run (sendMessage e user (mkMessageBody (Some jobId) (Some content) receiverId)) w =
   (Some (mkResponse 403 (JError "Permissão negada")), w)) /\
  (forall j, In j (jobs w) -> j_id j = jobId ->
     (id user = j_client_id j -> j_freelancer_id j = None ->
      run (sendMessage e user (mkMessageBody (Some jobId) (Some content) receiverId)) w =
      (Some (mkResponse 400 (JError "O job ainda não foi aceito por um freelancer.")), w)) /\
     (forall receiver,
        (id user = j_client_id j /\ j_freelancer_id j = Some receiver) \/
        (id user <> j_client_id j /\ j_freelancer_id j = Some (id user) /\
         receiver = j_client_id j) ->
        receiver <> 0 ->
        exists w',
          run (sendMessage e user (mkMessageBody (Some jobId) (Some content) receiverId)) w =
          (Some (mkResponse 201 (JMessage "Mensagem enviada")), w') /\
          messages w' =
            (messages w ++ [mkMessage (auto_messages w) jobId (id user) (Some receiver)
                                      content (now e)])%list /\
          users w' = users w /\ jobs w' = jobs w)).
Proof.
  intros Hnd.
  unfold sendMessage, select_job_of_participant, insert_message. monad_unfold. simpl.
  split.
  - intros Hnone. rewrite (participant_query_empty jobId (id user) w Hnone). reflexivity.
  - intros j Hin Hid. split.
    + intros Hclient Hfree.
      rewrite (participant_query_one jobId (id user) w j Hnd Hin Hid) by (left; congruence).
      rewrite Hclient, Z.eqb_refl, Hfree. reflexivity.
    + intros receiver Hother Hnz. apply Z.eqb_neq in Hnz.
      destruct Hother as [[Hclient Hfree]|(Hnot & Hfree & ->)].
      * rewrite (participant_query_one jobId (id user) w j Hnd Hin Hid) by (left; congruence).
        rewrite Hclient, Z.eqb_refl, Hfree. simpl. rewrite Hnz. simpl.
        eexists. split; [reflexivity|]. repeat split.
      * rewrite (participant_query_one jobId (id user) w j Hnd Hin Hid) by (right; assumption).
        apply Z.eqb_neq in Hnot. rewrite Hnot. simpl. rewrite Hnz. simpl.
        eexists. split; [reflexivity|]. repeat split.
Qed.

(** C9. The handler does not read the receiverId of the request body: two
    requests that differ in that field only get the same response and leave
    the same world, stored message included; and the receiver_id of a row
    the handler appends is the other participant of a job of the table, as
    the server computes it. *)
Theorem sendMessage_ignores_receiverId (user : identity) (jobId : option Z) (content : field)
    (receiverId receiverId' : option Z) (w : world) :
  run (sendMessage e user (mkMessageBody jobId content receiverId)) w =
  run (sendMessage e user (mkMessageBody jobId content receiverId')) w /\
  (forall m,
     In m (messages (snd (run (sendMessage e user (mkMessageBody jobId content receiverId)) w))) ->
     In m (messages w) \/
     (m_sender_id m = id user /\
      exists j, In j (jobs w) /\ Some (j_id j) = jobId /\
        m_receiver_id m =
        if id user =? j_client_id j then j_freelancer_id j else Some (j_client_id j))).
Proof.
  split; [reflexivity|].
  unfold sendMessage, select_job_of_participant, insert_message. monad_unfold.
  destruct jobId as [jid|]; simpl; [|intros m Hm; left; assumption].
  destruct (filter _ (jobs w)) as [|j0 rest] eqn:Hf; simpl; [intros m Hm; left; assumption|].
  assert (Hj0 : In j0 (jobs w) /\ j_id j0 = jid).
  { assert (Hin : In j0 (filter (fun j => (j_id j =? jid) &&
              ((j_client_id j =? id user) || sql_eq_null (j_freelancer_id j) (id user)))
              (jobs w))) by (rewrite Hf; left; reflexivity).
    apply filter_In in Hin. destruct Hin as [Hin Hb].
    apply andb_true_iff in Hb. destruct Hb as [Hid _].
    split; [assumption | apply Z.eqb_eq; assumption]. }
  destruct Hj0 as [Hin0 Hid0].
  destruct (negb (truthy_num _)); simpl; [intros m Hm; left; assumption|].
  destruct content as [c|]; simpl; [|intros m Hm; left; assumption].
  intros m Hm. apply in_app_or in Hm. destruct Hm as [Hm|[<-|[]]]; [left; assumption|].
  right. simpl. split; [reflexivity|].
  exists j0. repeat split; [assumption | congruence].
Qed.

End Messaging.

Lemma sendMessage_outcomes_witness :
  run (sendMessage test_env (mkIdentity 3 "freelancer")
         (mkMessageBody (Some 1) (Some "hi") None)) (test_world hired_job) =
    (Some (mkResponse 403 (JError "Permissão negada")), test_world hired_job) /\
  run (sendMessage test_env (mkIdentity 1 "client")
         (mkMessageBody (Some 1) (Some "hi") None)) (test_world open_job) =
    (Some (mkResponse 400 (JError "O job ainda não foi aceito por um freelancer.")),
     test_world open_job) /\
  (exists w',
     run (sendMessage test_env (mkIdentity 1 "client")
            (mkMessageBody (Some 1) (Some "hi") (Some 7))) (test_world hired_job) =
       (Some (mkResponse 201 (JMessage "Mensagem enviada")), w') /\
     messages w' = [mkMessage 1 1 1 (Some 2) "hi" 1000]) /\
  (exists w',
     run (sendMessage test_env (mkIdentity 2 "freelancer")
            (mkMessageBody (Some 1) (Some "hello") None)) (test_world hired_job) =
       (Some (mkResponse 201 (JMessage "Mensagem enviada")), w') /\
     messages w' = [mkMessage 1 1 2 (Some 1) "hello" 1000]).
Proof.
  assert (Hkeys : forall j, NoDup (map j_id (jobs (test_world j)))).
  { intros j. simpl. constructor; [intros [] | constructor]. }
  split; [|split; [|split]].
  - apply (sendMessage_outcomes test_env (mkIdentity 3 "freelancer") 1 "hi" None
             (test_world hired_job) (Hkeys hired_job)).
    simpl. intros j [<-|[]] _. simpl. split; discriminate.
  - destruct (sendMessage_outcomes test_env (mkIdentity 1 "client") 1 "hi" None
                (test_world open_job) (Hkeys open_job)) as [_ H].
    destruct (H open_job) as [Hnone _]; [left; reflexivity | reflexivity |].
    apply Hnone; reflexivity.
  - destruct (sendMessage_outcomes test_env (mkIdentity 1 "client") 1 "hi" (Some 7)
                (test_world hired_job) (Hkeys hired_job)) as [_ H].
    destruct (H hired_job) as [_ Hsend]; [left; reflexivity | reflexivity |].
    destruct (Hsend 2) as (w' & Hrun & Hmsgs & _).
    + left. split; reflexivity.
    + discriminate.
    + exists w'. split; [exact Hrun | exact Hmsgs].
  - destruct (sendMessage_outcomes test_env (mkIdentity 2 "freelancer") 1 "hello" None
                (test_world hired_job) (Hkeys hired_job)) as [_ H].
    destruct (H hired_job) as [_ Hsend]; [left; reflexivity | reflexivity |].
    destruct (Hsend 1) as (w' & Hrun & Hmsgs & _).
    + right. simpl. repeat split. discriminate.
    + discriminate.
    + exists w'. split; [exact Hrun | exact Hmsgs].
Defined.

(** ** Profile *)

Section ProfileUpdate.

Variable e : env.

(** What the profile handler does in each case: nothing at all when there
    is neither a bio nor a file; with a file that the storage accepts, the
    rows of the caller's id get the URL as avatar_url and, as bio, the
    supplied bio, or NULL when none (or an empty one) was supplied; with a
    bio and no file, the rows of that id get the bio and keep their
    avatar_url. *)
Lemma updateProfile_outcomes (user : identity) (bio : field) (file : option string) (w : world) :
  (truthy bio = false -> file = None ->
   run (updateProfile e user bio file) w =
   (Some (mkResponse 200 (JProfile "Nenhum dado fornecido para atualização." None)), w)) /\
  (forall buffer url, file = Some buffer -> upload e = UploadDone url ->
     exists w',
       run (updateProfile e user bio file) w =
       (Some (mkResponse 200 (JProfile "Perfil atualizado com sucesso" (Some url))), w') /\
       cloud w' = (cloud w ++ [buffer])%list /\
       users w' =
         map (fun u => if u_id u =? id user
                       then mkUser (u_id u) (u_name u) (u_email u) (u_password u) (u_role u)
                                   (if truthy bio then bio else None) (Some url)
                       else u) (users w)) /\
  (forall text, bio = Some text -> text <> "" -> file = None ->
     exists w',
       run (updateProfile e user bio file) w =
       (Some (mkResponse 200 (JProfile "Perfil atualizado com sucesso" None)), w') /\
       cloud w' = cloud w /\
       users w' =
         map (fun u => if u_id u =? id user
                       then mkUser (u_id u) (u_name u) (u_email u) (u_password u) (u_role u)
                                   (Some text) (u_avatar_url u)
                       else u) (users w)).
Proof.
  unfold updateProfile, uploadToCloudinary, update_users_profile. monad_unfold.
  split; [|split].
  - intros Hbio ->. destruct bio as [text|]; simpl in *; [|reflexivity].
    destruct (text =? "")%string; [reflexivity | discriminate].
  - intros buffer url -> Hup. simpl. rewrite Hup. simpl.
    eexists. split; [reflexivity|]. simpl. split; [reflexivity|].
    apply map_ext. intros u. unfold update_user_row.
    destruct (u_id u =? id user); [|reflexivity].
    destruct bio as [text|]; simpl; [|reflexivity].
    destruct (text =? "")%string; reflexivity.
  - intros text -> Hne ->. apply String.eqb_neq in Hne. simpl. rewrite Hne. simpl.
    eexists. split; [reflexivity|]. simpl. split; reflexivity.
Qed.

End ProfileUpdate.

(** C7 on the code: a profile update with an avatar file and no bio does
    not leave the stored bio as it was.  Ana's row has the bio 'Designer';
    after the update it has the new avatar_url and the bio NULL. *)
Theorem updateProfile_avatar_only_erases_bio :
  u_bio ana = Some "Designer" /\
  exists w',
    run (updateProfile test_env (mkIdentity 1 "client") None (Some "png")) (test_world open_job) =
      (Some (mkResponse 200 (JProfile "Perfil atualizado com sucesso"
                                      (Some "https://cdn.test/a.png"))), w') /\
    users w' =
      [mkUser 1 "Ana" "ana@test" "pepper$hunter2" "client" None (Some "https://cdn.test/a.png");
       bia].
Proof. split; [reflexivity|]. eexists. split; reflexivity. Qed.

(** * Further properties of the handlers *)

(** ** Relations every step of a handler keeps *)

Section Preservation.

Context (R : world -> world -> Prop) `{!PreOrder R}.

Lemma preserves_ret {A} (a : A) : preserves R (ret a).
Proof. intros w. simpl. reflexivity. Qed.

Lemma preserves_send {A} (r : response) : preserves R (@send A r).
Proof. intros w. simpl. reflexivity. Qed.

Lemma preserves_throw {A} (x : exn) : preserves R (@throw A x).
Proof. intros w. simpl. reflexivity. Qed.

Lemma preserves_get : preserves R get.
Proof. intros w. simpl. reflexivity. Qed.

Lemma preserves_param {A} (v : option A) : preserves R (param v).
Proof. destruct v; [apply preserves_ret | apply preserves_throw]. Qed.

Lemma preserves_modify (f : world -> world) :
  (forall w, R w (f w)) -> preserves R (modify f).
Proof. intros H w. apply H. Qed.

Lemma preserves_bind {A B} (m : M A) (k : A -> M B) :
  preserves R m -> (forall a, preserves R (k a)) -> preserves R (bind m k).
Proof.
  intros Hm Hk w. unfold bind. specialize (Hm w).
  destruct (m w) as [[a|r|x] w1]; simpl in *; [|assumption|assumption].
  transitivity w1; [assumption | apply Hk].
Qed.

Lemma preserves_try_catch {A} (m : M A) (h : exn -> M A) :
  preserves R m -> (forall x, preserves R (h x)) -> preserves R (try_catch m h).
Proof.
  intros Hm Hh w. unfold try_catch. specialize (Hm w).
  destruct (m w) as [[a|r|x] w1]; simpl in *; [assumption|assumption|].
  transitivity w1; [assumption | apply Hh].
Qed.

Lemma preserves_run (m : M response) (w : world) :
  preserves R m -> R w (snd (run m w)).
Proof. intros H. rewrite snd_run. apply H. Qed.

Lemma preserves_run_query {A} (m : M (list A)) (w : world) :
  preserves R m -> R w (snd (run_query m w)).
Proof.
  intros H. specialize (H w). unfold run_query.
  destruct (m w) as [[a|r|x] w1]; assumption.
Qed.

End Preservation.

(** Decomposition of a handler into its steps; [finish] settles the
    relation for the function a [modify] applies. *)
Ltac preorder_found := try match goal with |- PreOrder _ => exact _ end.

Tactic Notation "preserves_with" tactic3(finish) :=
  repeat match goal with
    | |- preserves _ (bind _ _) => (apply preserves_bind; preorder_found); [|intros ?]
    | |- preserves _ (try_catch _ _) => (apply preserves_try_catch; preorder_found); [|intros ?]
    | |- preserves _ (ret _) => apply preserves_ret; preorder_found
    | |- preserves _ (send _) => apply preserves_send; preorder_found
    | |- preserves _ (throw _) => apply preserves_throw; preorder_found
    | |- preserves _ get => apply preserves_get; preorder_found
    | |- preserves _ (param _) => apply preserves_param; preorder_found
    | |- preserves _ (modify _) => (apply preserves_modify; preorder_found); intros ?; finish
    | |- preserves _ (match ?x with _ => _ end) => destruct x
    | |- preserves _ (if ?b then _ else _) => destruct b
    end.

Ltac unfold_handlers :=
  unfold register, login, authenticateToken, updateProfile, createJob, hire, sendMessage,
         listOpenJobs, listMessages, sendEmailBrevo, uploadToCloudinary, axios_post,
         select_users_by_email, insert_user, update_users_profile, insert_job,
         select_open_job, update_job_hired, select_job_of_participant, insert_message,
         select_open_jobs_with_client, select_messages_with_sender,
         bcrypt_hash, bcrypt_compare, jwt_sign, console_log, console_error.

(** ** Nothing is ever deleted *)

Lemma extends_refl {A} (l : list A) : extends l l.
Proof. exists []. symmetry. apply app_nil_r. Qed.

Lemma extends_trans {A} (l1 l2 l3 : list A) : extends l1 l2 -> extends l2 l3 -> extends l1 l3.
Proof. intros [a ->] [b ->]. exists (a ++ b)%list. symmetry. apply app_assoc. Qed.

Lemma extends_snoc {A} (l : list A) (x : A) : extends l (l ++ [x]).
Proof. exists [x]. reflexivity. Qed.

#[local] Instance grows_preorder : PreOrder grows.
Proof.
  split.
  - intros w. repeat split; apply extends_refl.
  - intros w1 w2 w3 (Hu & Hj & Hm) (Hu' & Hj' & Hm').
    repeat split; eapply extends_trans; eassumption.
Qed.

Lemma update_user_row_id (bio avatar : option string) (i : Z) (u : user) :
  u_id (update_user_row bio avatar i u) = u_id u.
Proof. unfold update_user_row. destruct (u_id u =? i); reflexivity. Qed.

Lemma update_user_row_email (bio avatar : option string) (i : Z) (u : user) :
  u_email (update_user_row bio avatar i u) = u_email u.
Proof. unfold update_user_row. destruct (u_id u =? i); reflexivity. Qed.

Lemma update_users_ids (bio avatar : option string) (i : Z) (l : list user) :
  map u_id (map (update_user_row bio avatar i) l) = map u_id l.
Proof. rewrite map_map. apply map_ext. intros u. apply update_user_row_id. Qed.

Lemma update_users_emails (bio avatar : option string) (i : Z) (l : list user) :
  map u_email (map (update_user_row bio avatar i) l) = map u_email l.
Proof. rewrite map_map. apply map_ext. intros u. apply update_user_row_email. Qed.

Lemma assign_jobs_ids (f jobId : Z) (l : list job) :
  map j_id (map (assign_job_row f jobId) l) = map j_id l.
Proof. rewrite map_map. apply map_ext. intros j. apply assign_job_row_id. Qed.

Ltac grows_finish :=
  unfold grows; simpl;
  repeat split;
  rewrite ?map_app, ?update_users_ids, ?assign_jobs_ids; simpl;
  first [ apply extends_refl | apply extends_snoc ].

Section Growth.

Variable S : services.

Lemma grows_route (e : env) (r : request) : preserves grows (route S e r).
Proof.
  destruct r; simpl; unfold_handlers; preserves_with grows_finish.
Qed.

(** X11. No request deletes a row or changes a key: the ids of the users and of
    the jobs and the messages themselves are, after any sequence of
    requests, still there in the same order, followed by what was added. *)
Theorem nothing_is_deleted (w w' : world) :
  steps S w w' -> grows w w'.
Proof.
  induction 1 as [|w1 e1 r _ IH]; [reflexivity|].
  transitivity w1; [assumption|].
  unfold serve. apply preserves_run; preorder_found. apply grows_route.
Qed.

End Growth.

Lemma nothing_is_deleted_witness : grows initial hired_world.
Proof.
  apply (nothing_is_deleted test_services initial hired_world).
  unfold hired_world, posted_world. do 2 apply steps_serve. apply steps_refl.
Defined.

(** ** Every request is answered *)

Lemma never_throws_send {A} (r : response) : never_throws (@send A r).
Proof. intros w. exact I. Qed.

Lemma never_throws_ret {A} (a : A) : never_throws (ret a).
Proof. intros w. exact I. Qed.

Lemma never_throws_modify (f : world -> world) : never_throws (modify f).
Proof. intros w. exact I. Qed.

Lemma never_throws_bind {A B} (m : M A) (k : A -> M B) :
  never_throws m -> (forall a, never_throws (k a)) -> never_throws (bind m k).
Proof.
  intros Hm Hk w. unfold bind. specialize (Hm w).
  destruct (m w) as [[a|r|x] w1]; simpl in *; [apply Hk | exact I | contradiction].
Qed.

(** A [try] whose [catch] block does not throw lets nothing through. *)
Lemma never_throws_try_catch {A} (m : M A) (h : exn -> M A) :
  (forall x, never_throws (h x)) -> never_throws (try_catch m h).
Proof.
  intros Hh w. unfold try_catch.
  destruct (m w) as [[a|r|x] w1]; simpl; [exact I | exact I | apply Hh].
Qed.

Ltac never_throws_auto :=
  repeat first
    [ apply never_throws_try_catch; intros ?
    | apply never_throws_bind; [|intros ?]
    | apply never_throws_send
    | apply never_throws_ret
    | apply never_throws_modify
    | match goal with
      | |- never_throws (if ?b then _ else _) => destruct b
      | |- never_throws (match ?x with _ => _ end) => destruct x
      end ].

Section Answers.

Variable S : services.
Variable e : env.

Lemma never_throws_route (r : request) : never_throws (route S e r).
Proof.
  destruct r; simpl;
    unfold register, login, authenticateToken, updateProfile, createJob, hire, sendMessage,
           console_error;
    never_throws_auto.
Qed.

Lemma handle_parsed (r : request) (w : world) : handle S e (parsed r) w = route S e r w.
Proof.
  destruct r as [b|b|h bio file|h b|h jobId|h b]; try reflexivity.
  simpl. unfold authenticateToken.
  destruct (negb (truthy _)); [reflexivity|].
  destruct (jwt_verify _ _ _ _) as [err|caller]; [reflexivity|].
  unfold createJob. destruct (negb (role caller =? "client")%string); reflexivity.
Qed.

(** X12. A handler answers exactly when Express gives it a body to read.
    Given a request whose body was parsed, every route sends a response,
    whatever the state: each exception met inside a [try] (a missing bind
    parameter, a rejected hash, a refused signature, a failed upload) is
    caught by the handler's own [catch] and answered 500.  Given a request
    with no body ([req.body] undefined), the destructuring that comes before
    the [try] throws where nothing catches it, and the handler sends no
    response and changes nothing: register and login at once, the profile
    and message routes once the token is accepted, the job route once the
    token is accepted and the caller is a client (another caller is still
    answered 403).  The two read routes, which read no body, always answer. *)
Theorem handlers_answer_a_parsed_body (w : world) :
  (forall r, exists resp, fst (run (handle S e (parsed r)) w) = Some resp) /\
  run (handle S e (IncomingRegister None)) w = (None, w) /\
  run (handle S e (IncomingLogin None)) w = (None, w) /\
  (forall authorization caller,
     truthy (token_of_header authorization) = true ->
     jwt_verify S e (show (token_of_header authorization)) (JWT_SECRET S) = inr caller ->
     (forall file, run (handle S e (IncomingProfile authorization None file)) w = (None, w)) /\
     run (handle S e (IncomingMessages authorization None)) w = (None, w) /\
     (role caller = "client" ->
      run (handle S e (IncomingJobs authorization None)) w = (None, w)) /\
     (role caller <> "client" ->
      run (handle S e (IncomingJobs authorization None)) w =
      (Some (mkResponse 403 (JError "Apenas clientes podem postar jobs")), w))) /\
  (forall caller jobId,
     fst (run_query listOpenJobs w) <> Unanswered /\
     fst (run_query (listMessages caller jobId) w) <> Unanswered).
Proof.
  split; [|split; [reflexivity | split; [reflexivity | split]]].
  - intros r. unfold run. rewrite handle_parsed.
    pose proof (never_throws_route r w) as H.
    destruct (route S e r w) as [[resp|resp|x] w1]; simpl in *;
      [exists resp; reflexivity | exists resp; reflexivity | contradiction].
  - intros authorization caller Htoken Hverify.
    assert (Hauth : forall next,
              run (authenticateToken S e authorization next) w = run (next caller) w).
    { intros next. rewrite authenticateToken_token, Htoken, Hverify. reflexivity. }
    split; [|split; [|split]].
    + intros file. simpl. rewrite Hauth. reflexivity.
    + simpl. rewrite Hauth. reflexivity.
    + intros Hrole. simpl. rewrite Hauth, Hrole. reflexivity.
    + intros Hrole. simpl. rewrite Hauth.
      apply String.eqb_neq in Hrole. rewrite Hrole. reflexivity.
  - intros caller jobId. split.
    + assert (H : never_throws listOpenJobs) by (unfold listOpenJobs; never_throws_auto).
      specialize (H w). unfold run_query.
      destruct (listOpenJobs w) as [[rows|resp|x] w1]; simpl in *;
        [discriminate | discriminate | contradiction].
    + assert (H : never_throws (listMessages caller jobId))
        by (unfold listMessages; never_throws_auto).
      specialize (H w). unfold run_query.
      destruct (listMessages caller jobId w) as [[rows|resp|x] w1]; simpl in *;
        [discriminate | discriminate | contradiction].
Qed.

End Answers.

Lemma handlers_answer_a_parsed_body_witness :
  (exists resp,
     fst (run (handle test_services test_env
                 (parsed (PostMessages (Some "Bearer ana.jwt")
                                       (mkMessageBody (Some 1) None None))))
              hired_world) = Some resp) /\
  run (handle test_services test_env (IncomingMessages (Some "Bearer ana.jwt") None))
      hired_world = (None, hired_world) /\
  run (handle test_services test_env (IncomingJobs (Some "Bearer bia.jwt") None))
      hired_world =
    (Some (mkResponse 403 (JError "Apenas clientes podem postar jobs")), hired_world).
Proof.
  destruct (handlers_answer_a_parsed_body test_services test_env hired_world)
    as (Hparsed & _ & _ & Hnone & _).
  split; [apply Hparsed|].
  destruct (Hnone (Some "Bearer ana.jwt") (mkIdentity 1 "client") eq_refl eq_refl)
    as (_ & Hmessages & _).
  destruct (Hnone (Some "Bearer bia.jwt") (mkIdentity 2 "freelancer") eq_refl eq_refl)
    as (_ & _ & _ & Hjobs).
  split; [exact Hmessages | apply Hjobs; simpl; discriminate].
Defined.

(** ** The routes that only read *)

#[local] Instance only_logs_preorder : PreOrder only_logs.
Proof.
  split.
  - intros w. repeat split.
  - intros w1 w2 w3 H12 H23. unfold only_logs in *.
    destruct H12 as (A1 & A2 & A3 & A4 & A5 & A6 & A7 & A8).
    destruct H23 as (B1 & B2 & B3 & B4 & B5 & B6 & B7 & B8).
    repeat split; congruence.
Qed.

Section ReadOnly.

Variable S : services.
Variable e : env.

(** X13. Login and the two list routes write to no table, send no e-mail and
    store no file, whatever the request: at most the console gets a line (when
    login catches an exception).  The list routes leave the whole world as
    it is. *)
Theorem read_routes_write_nothing (b : login_body) (user : identity) (jobId : Z) (w : world) :
  only_logs w (snd (run (login S e b) w)) /\
  snd (run_query listOpenJobs w) = w /\
  snd (run_query (listMessages user jobId) w) = w.
Proof.
  split; [|split].
  - apply preserves_run; preorder_found.
    unfold_handlers. preserves_with (repeat split).
  - reflexivity.
  - unfold listMessages, select_job_of_participant, select_messages_with_sender, run_query.
    monad_unfold. simpl.
    destruct (filter _ (jobs w)); reflexivity.
Qed.

End ReadOnly.

(** ** The job listing *)

Lemma job_listing_in (w : world) (j : job) (name : string) :
  In (mkJobListing j name)
     (flat_map
        (fun j => map (fun u => mkJobListing j (u_name u))
                      (filter (fun u => j_client_id j =? u_id u) (users w)))
        (filter (fun j => (j_status j =? "open")%string) (jobs w))) <->
  (In j (jobs w) /\ j_status j = "open" /\
   exists u, In u (users w) /\ u_id u = j_client_id j /\ u_name u = name).
Proof.
  rewrite in_flat_map. split.
  - intros (j0 & Hj0 & Hrow). apply filter_In in Hj0. destruct Hj0 as [Hin Hopen].
    apply in_map_iff in Hrow. destruct Hrow as (u & Heq & Hu).
    apply filter_In in Hu. destruct Hu as [Hu Hid].
    injection Heq as -> Hname. apply String.eqb_eq in Hopen. apply Z.eqb_eq in Hid.
    repeat split; try assumption. exists u. repeat split; [assumption | congruence | assumption].
  - intros (Hin & Hopen & u & Hu & Hid & Hname).
    exists j. split.
    + apply filter_In. split; [assumption | apply String.eqb_eq; assumption].
    + apply in_map_iff. exists u. split; [rewrite Hname; reflexivity|].
      apply filter_In. split; [assumption | apply Z.eqb_eq; congruence].
Qed.

(** X4. GET /jobs answers the rows of the join and changes nothing: a job is
    listed, with the name of its client, exactly when its status is 'open'
    and its client_id is the id of a user row.  So a job at any other status
    is not listed, nor is a job whose client has no user row. *)
Theorem listOpenJobs_rows (w : world) :
  exists rows,
    run_query listOpenJobs w = (Listed rows, w) /\
    forall j name,
      In (mkJobListing j name) rows <->
      (In j (jobs w) /\ j_status j = "open" /\
       exists u, In u (users w) /\ u_id u = j_client_id j /\ u_name u = name).
Proof.
  eexists. split; [reflexivity|].
  intros j name. apply job_listing_in.
Qed.

(** ** The message thread *)

Lemma insert_by_created_at_perm (r : message_listing) (rows : list message_listing) :
  Permutation (r :: rows) (insert_by_created_at r rows).
Proof.
  induction rows as [|x rest IH]; simpl; [reflexivity|].
  destruct (_ <=? _); [reflexivity|].
  rewrite perm_swap. apply perm_skip. assumption.
Qed.

Lemma order_by_created_at_perm (rows : list message_listing) :
  Permutation rows (order_by_created_at rows).
Proof.
  induction rows as [|x rest IH]; simpl; [reflexivity|].
  rewrite <- insert_by_created_at_perm. apply perm_skip. assumption.
Qed.

Lemma insert_by_created_at_ascending (r : message_listing) (rows : list message_listing) :
  ascending rows -> ascending (insert_by_created_at r rows).
Proof.
  induction rows as [|x rest IH]; simpl; [intros _; split; [constructor | exact I]|].
  intros [Hx Hrest].
  destruct (Z.leb_spec (m_created_at (ml_message r)) (m_created_at (ml_message x))) as [Hle|Hgt].
  - simpl. split; [|split; assumption]. constructor; [assumption|].
    apply Forall_impl with (P := fun y => m_created_at (ml_message x) <= m_created_at (ml_message y));
      [intros y Hy; lia | assumption].
  - simpl. split; [|apply IH; assumption].
    apply (Permutation_Forall (insert_by_created_at_perm r rest)).
    constructor; [lia | assumption].
Qed.

Lemma order_by_created_at_ascending (rows : list message_listing) :
  ascending (order_by_created_at rows).
Proof.
  induction rows as [|x rest IH]; simpl; [exact I|].
  apply insert_by_created_at_ascending. assumption.
Qed.

Lemma participant_query_found (jobId who : Z) (w : world) :
  (exists j, In j (jobs w) /\ j_id j = jobId /\
             (j_client_id j = who \/ j_freelancer_id j = Some who)) ->
  filter (fun j => (j_id j =? jobId) &&
                   ((j_client_id j =? who) || sql_eq_null (j_freelancer_id j) who))
         (jobs w) <> [].
Proof.
  intros (j & Hin & Hid & Hpart) Hnil.
  rewrite filter_empty_iff in Hnil. specialize (Hnil j Hin).
  rewrite Hid, Z.eqb_refl in Hnil. simpl in Hnil.
  destruct Hpart as [Hc|Hf].
  - rewrite Hc, Z.eqb_refl in Hnil. discriminate.
  - rewrite Hf in Hnil. simpl in Hnil. rewrite Z.eqb_refl, orb_true_r in Hnil. discriminate.
Qed.

Lemma thread_in (w : world) (jobId : Z) (m : message) (name : string) :
  In (mkMessageListing m name)
     (order_by_created_at
        (flat_map (fun m => map (fun u => mkMessageListing m (u_name u))
                                (filter (fun u => m_sender_id m =? u_id u) (users w)))
                  (filter (fun m => m_job_id m =? jobId) (messages w)))) <->
  (In m (messages w) /\ m_job_id m = jobId /\
   exists u, In u (users w) /\ u_id u = m_sender_id m /\ u_name u = name).
Proof.
  split.
  - intros Hin. apply (Permutation_in _ (Permutation_sym (order_by_created_at_perm _))) in Hin.
    apply in_flat_map in Hin. destruct Hin as (m0 & Hm0 & Hrow).
    apply filter_In in Hm0. destruct Hm0 as [Hm0 Hjob].
    apply in_map_iff in Hrow. destruct Hrow as (u & Heq & Hu).
    apply filter_In in Hu. destruct Hu as [Hu Hid].
    injection Heq as -> Hname. apply Z.eqb_eq in Hjob. apply Z.eqb_eq in Hid.
    repeat split; try assumption. exists u. repeat split; [assumption | congruence | assumption].
  - intros (Hin & Hjob & u & Hu & Hid & Hname).
    apply (Permutation_in _ (order_by_created_at_perm _)).
    apply in_flat_map. exists m. split.
    + apply filter_In. split; [assumption | apply Z.eqb_eq; assumption].
    + apply in_map_iff. exists u. split; [rewrite Hname; reflexivity|].
      apply filter_In. split; [assumption | apply Z.eqb_eq; congruence].
Qed.

(** X5. GET /messages/:jobId answers 403 'Acesso negado' to a caller who is
    neither the client nor the freelancer of a job of that id; to a
    participant it answers the thread: the messages of that job whose
    sender has a user row, each once per such row with the sender's name,
    in ascending order of created_at.  Neither case changes anything. *)
Theorem listMessages_thread (user : identity) (jobId : Z) (w : world) :
  ((forall j, In j (jobs w) -> j_id j = jobId ->
              j_client_id j <> id user /\ j_freelancer_id j <> Some (id user)) ->
   run_query (listMessages user jobId) w =
   (Answered (mkResponse 403 (JError "Acesso negado")), w)) /\
  ((exists j, In j (jobs w) /\ j_id j = jobId /\
              (j_client_id j = id user \/ j_freelancer_id j = Some (id user))) ->
   exists rows,
     run_query (listMessages user jobId) w = (Listed rows, w) /\
     ascending rows /\
     Permutation rows
       (flat_map (fun m => map (fun u => mkMessageListing m (u_name u))
                               (filter (fun u => m_sender_id m =? u_id u) (users w)))
                 (filter (fun m => m_job_id m =? jobId) (messages w))) /\
     forall m name,
       In (mkMessageListing m name) rows <->
       (In m (messages w) /\ m_job_id m = jobId /\
        exists u, In u (users w) /\ u_id u = m_sender_id m /\ u_name u = name)).
Proof.
  unfold listMessages, select_job_of_participant, select_messages_with_sender, run_query.
  monad_unfold. simpl. split.
  - intros Hnone. rewrite (participant_query_empty jobId (id user) w Hnone). reflexivity.
  - intros Hsome. apply participant_query_found in Hsome.
    destruct (filter _ (jobs w)) as [|j0 rest]; [contradiction|]. simpl.
    eexists. split; [reflexivity|].
    split; [apply order_by_created_at_ascending|].
    split; [symmetry; apply order_by_created_at_perm|].
    intros m name. apply thread_in.
Qed.

Lemma listMessages_thread_witness :
  run_query (listMessages (mkIdentity 3 "freelancer") 1) chat_world =
    (Answered (mkResponse 403 (JError "Acesso negado")), chat_world) /\
  exists rows,
    run_query (listMessages (mkIdentity 2 "freelancer") 1) chat_world = (Listed rows, chat_world) /\
    rows = [mkMessageListing (mkMessage 2 1 1 (Some 2) "hello" 1001) "Ana";
            mkMessageListing (mkMessage 1 1 2 (Some 1) "on it" 1005) "Bia"].
Proof.
  split.
  - apply (listMessages_thread (mkIdentity 3 "freelancer") 1 chat_world).
    simpl. intros j [<-|[]] _. simpl. split; discriminate.
  - destruct (listMessages_thread (mkIdentity 2 "freelancer") 1 chat_world) as [_ H].
    destruct H as (rows & Hrun & _).
    + exists hired_job. simpl. repeat split; auto.
    + exists rows. split; [exact Hrun|].
      assert (Heq : (Listed rows, chat_world) =
                    (Listed [mkMessageListing (mkMessage 2 1 1 (Some 2) "hello" 1001) "Ana";
                             mkMessageListing (mkMessage 1 1 2 (Some 1) "on it" 1005) "Bia"],
                     chat_world)) by (rewrite <- Hrun; reflexivity).
      injection Heq as ->. reflexivity.
Defined.

(** ** Posting a job *)

Section Posting.

Variable S : services.
Variable e : env.

(** The world after the insert of a job. *)
Lemma createJob_posted (user : identity) (title description : string) (budget : Z) (w : world) :
  role user = "client" ->
  exists w',
    createJob e user (mkJobBody (Some title) (Some description) (Some budget)) w =
    (Value (mkResponse 201 (JJobCreated "Job publicado!" (auto_jobs w))), w') /\
    jobs w' = (jobs w ++ [mkJob (auto_jobs w) (id user) title description budget "open" None])%list /\
    auto_jobs w' = auto_jobs w + 1 /\
    users w' = users w /\ messages w' = messages w.
Proof.
  intros Hrole. unfold createJob, insert_job. monad_unfold. rewrite Hrole. simpl.
  eexists. split; [reflexivity|]. repeat split.
Qed.

(** X2. POST /jobs by a caller whose role is not 'client' is answered 403 and
    changes nothing; by a client with title, description and budget it is
    answered 201 with the id of the job it appends, which is 'open', owned
    by the caller and has no freelancer; by a client with one of the three
    fields missing it is answered 500 'Erro ao criar job' and no job is
    inserted. *)
Theorem createJob_outcomes (user : identity) (b : job_body) (w : world) :
  (role user <> "client" ->
   run (createJob e user b) w =
   (Some (mkResponse 403 (JError "Apenas clientes podem postar jobs")), w)) /\
  (role user = "client" ->
   forall title description budget,
     b = mkJobBody (Some title) (Some description) (Some budget) ->
     exists w',
       run (createJob e user b) w =
       (Some (mkResponse 201 (JJobCreated "Job publicado!" (auto_jobs w))), w') /\
       jobs w' =
         (jobs w ++ [mkJob (auto_jobs w) (id user) title description budget "open" None])%list /\
       users w' = users w /\ messages w' = messages w) /\
  (role user = "client" ->
   jb_title b = None \/ jb_description b = None \/ jb_budget b = None ->
   exists w',
     run (createJob e user b) w =
     (Some (mkResponse 500 (JError "Erro ao criar job")), w') /\
     only_logs w w').
Proof.
  split; [|split].
  - intros Hrole. unfold createJob. monad_unfold.
    apply String.eqb_neq in Hrole. rewrite Hrole. reflexivity.
  - intros Hrole title description budget ->.
    destruct (createJob_posted user title description budget w Hrole)
      as (w' & Hrun & Hjobs & _ & Husers & Hmsgs).
    exists w'. unfold run. rewrite Hrun. repeat split; assumption.
  - intros Hrole Hmissing. unfold createJob, insert_job. monad_unfold. rewrite Hrole. simpl.
    destruct b as [[t|] [d|] [bu|]]; simpl in *;
      try (eexists; split; [reflexivity | repeat split]).
    destruct Hmissing as [H|[H|H]]; discriminate.
Qed.

(** X3. A job a client posts shows in the listing at once, under the client's
    name, when the client has a user row. *)
Theorem posted_job_is_listed (caller : identity) (title description : string) (budget : Z)
    (u : user) (w : world) :
  role caller = "client" -> In u (users w) -> u_id u = id caller ->
  exists w' rows,
    run (createJob e caller (mkJobBody (Some title) (Some description) (Some budget))) w =
    (Some (mkResponse 201 (JJobCreated "Job publicado!" (auto_jobs w))), w') /\
    run_query listOpenJobs w' = (Listed rows, w') /\
    In (mkJobListing (mkJob (auto_jobs w) (id caller) title description budget "open" None)
                     (u_name u))
       rows.
Proof.
  intros Hrole Hu Hid.
  destruct (createJob_posted caller title description budget w Hrole)
    as (w' & Hrun & Hjobs & _ & Husers & _).
  exists w'. eexists. split; [unfold run; rewrite Hrun; reflexivity|].
  split; [reflexivity|].
  apply job_listing_in. rewrite Hjobs, Husers. split; [|split].
  - apply in_or_app. right. left. reflexivity.
  - reflexivity.
  - exists u. repeat split; assumption.
Qed.

End Posting.

Lemma createJob_outcomes_witness :
  run (createJob test_env (mkIdentity 2 "freelancer")
         (mkJobBody (Some "Logo") (Some "A logo") (Some 300))) initial =
    (Some (mkResponse 403 (JError "Apenas clientes podem postar jobs")), initial) /\
  (exists w',
     run (createJob test_env (mkIdentity 1 "client")
            (mkJobBody (Some "Logo") (Some "A logo") (Some 300))) initial =
       (Some (mkResponse 201 (JJobCreated "Job publicado!" 1)), w') /\
     jobs w' = [open_job]) /\
  (exists w',
     run (createJob test_env (mkIdentity 1 "client")
            (mkJobBody (Some "Logo") None (Some 300))) initial =
       (Some (mkResponse 500 (JError "Erro ao criar job")), w') /\
     jobs w' = []).
Proof.
  pose proof (createJob_outcomes test_env (mkIdentity 2 "freelancer")
                (mkJobBody (Some "Logo") (Some "A logo") (Some 300)) initial) as (H403 & _).
  pose proof (createJob_outcomes test_env (mkIdentity 1 "client")
                (mkJobBody (Some "Logo") (Some "A logo") (Some 300)) initial) as (_ & H201 & _).
  pose proof (createJob_outcomes test_env (mkIdentity 1 "client")
                (mkJobBody (Some "Logo") None (Some 300)) initial) as (_ & _ & H500).
  split; [apply H403; simpl; discriminate|]. split.
  - destruct (H201 eq_refl "Logo" "A logo" 300 eq_refl) as (w' & Hrun & Hjobs & _).
    exists w'. split; [exact Hrun | exact Hjobs].
  - destruct (H500 eq_refl) as (w' & Hrun & Hsame).
    + right. left. reflexivity.
    + exists w'. split; [exact Hrun|]. destruct Hsame as (_ & Hjobs & _). exact Hjobs.
Defined.

Lemma posted_job_is_listed_witness :
  exists w' rows,
    run (createJob test_env (mkIdentity 1 "client")
           (mkJobBody (Some "Site") (Some "A site") (Some 900))) (test_world hired_job) =
      (Some (mkResponse 201 (JJobCreated "Job publicado!" 2)), w') /\
    run_query listOpenJobs w' = (Listed rows, w') /\
    In (mkJobListing (mkJob 2 1 "Site" "A site" 900 "open" None) "Ana") rows.
Proof.
  apply (posted_job_is_listed test_env (mkIdentity 1 "client") "Site" "A site" 900 ana
           (test_world hired_job)).
  - reflexivity.
  - left. reflexivity.
  - reflexivity.
Defined.

(** ** A job is hired once *)

Lemma hire_success_open (e : env) (user : identity) (jobId : Z) (w w' : world) (r : response) :
  run (hire e user jobId) w = (Some r, w') -> status r = 200 ->
  exists j, In j (jobs w) /\ j_id j = jobId /\ j_status j = "open".
Proof.
  unfold hire, select_open_job, update_job_hired. monad_unfold.
  destruct (negb _); [intros [= <- <-]; discriminate|]. simpl.
  rewrite length_zero_eqb.
  destruct (filter _ (jobs w)) as [|j0 rest] eqn:Hf; simpl.
  - intros [= <- <-]; discriminate.
  - intros _ _.
    assert (Hin : In j0 (filter (fun j => (j_id j =? jobId) && (j_status j =? "open")%string)
                                (jobs w))) by (rewrite Hf; left; reflexivity).
    apply filter_In in Hin. destruct Hin as [Hin Hb].
    apply andb_true_iff in Hb. destruct Hb as [Hid Hst].
    exists j0. repeat split; [assumption | apply Z.eqb_eq; assumption | apply String.eqb_eq; assumption].
Qed.

Section HiredOnce.

Variable S : services.

(** X6. Once a hire of a job has succeeded, in a world the server had reached,
    the job stays with that freelancer through every later request: each row
    of that id is 'in_progress' with the freelancer_id of the first hire, a
    further hire of it is answered 404 'Job não disponível' to any
    freelancer and changes nothing, and the job listing no longer has it. *)
Theorem hired_job_is_closed (e : env) (first : identity) (jobId : Z) (w w1 w2 : world) :
  reachable S w ->
  run (hire e first jobId) w =
    (Some (mkResponse 200 (JMessage "Job aceito com sucesso! Chat liberado.")), w1) ->
  steps S w1 w2 ->
  (forall j, In j (jobs w2) -> j_id j = jobId ->
             j_status j = "in_progress" /\ j_freelancer_id j = Some (id first)) /\
  (forall e' other, role other = "freelancer" ->
     run (hire e' other jobId) w2 =
     (Some (mkResponse 404 (JError "Job não disponível")), w2)) /\
  (forall rows, run_query listOpenJobs w2 = (Listed rows, w2) ->
     forall row, In row rows -> j_id (jl_job row) <> jobId).
Proof.
  intros Hreach Hrun Hsteps.
  pose proof (reachable_invariant S w Hreach) as Hinv.
  destruct (hire_success_open e first jobId w w1 _ Hrun eq_refl) as (j0 & Hin0 & Hid0 & Hopen0).
  pose proof (hire_success_rows e first jobId w w1 _ Hrun eq_refl) as Hrows.
  assert (Hinv1 : jobs_invariant w1).
  { apply (jobs_invariant_effect w); [|assumption].
    replace w1 with (snd (run (hire e first jobId) w)) by (rewrite Hrun; reflexivity).
    apply hire_effect. }
  assert (Hin1 : In (hired (id first) j0) (jobs w1)).
  { rewrite Hrows. replace (hired (id first) j0) with (assign_job_row (id first) jobId j0).
    - apply in_map. assumption.
    - unfold assign_job_row.
      destruct (Z.eqb_spec (j_id j0) jobId); [reflexivity | contradiction]. }
  assert (Hin2 : In (hired (id first) j0) (jobs w2))
    by (apply (steps_assigned_row S w1 w2 _ (id first)); [assumption | assumption | assumption | reflexivity]).
  pose proof (steps_invariant S w1 w2 Hsteps Hinv1) as (_ & Hnd2 & _).
  assert (Hrow : forall j, In j (jobs w2) -> j_id j = jobId ->
                           j_status j = "in_progress" /\ j_freelancer_id j = Some (id first)).
  { intros j Hin Hid.
    assert (j = hired (id first) j0)
      by (apply (unique_key j_id (jobs w2)); [assumption | assumption | assumption | simpl; congruence]).
    subst j. split; reflexivity. }
  split; [exact Hrow|]. split.
  - intros e' other Hrole. unfold hire, select_open_job. monad_unfold. rewrite Hrole. simpl.
    rewrite (select_open_job_empty jobId w2); [reflexivity|].
    intros j Hin Hid. destruct (Hrow j Hin Hid) as [Hst _]. rewrite Hst. discriminate.
  - intros rows Hlist row Hrowin Hid.
    assert (Heq : rows =
              flat_map (fun j => map (fun u => mkJobListing j (u_name u))
                                     (filter (fun u => j_client_id j =? u_id u) (users w2)))
                       (filter (fun j => (j_status j =? "open")%string) (jobs w2)))
      by (injection Hlist as <-; reflexivity).
    destruct row as [j name]. rewrite Heq in Hrowin.
    apply job_listing_in in Hrowin. destruct Hrowin as (Hin & Hopen & _).
    destruct (Hrow j Hin Hid) as [Hst _]. simpl in *. rewrite Hst in Hopen. discriminate.
Qed.

End HiredOnce.

Lemma posted_world_reachable : reachable test_services posted_world.
Proof. unfold reachable, posted_world. apply steps_serve. apply steps_refl. Qed.

Lemma hired_job_is_closed_witness :
  run (hire test_env (mkIdentity 7 "freelancer") 1) hired_world =
    (Some (mkResponse 404 (JError "Job não disponível")), hired_world) /\
  (forall j, In j (jobs hired_world) -> j_id j = 1 ->
             j_status j = "in_progress" /\ j_freelancer_id j = Some 2).
Proof.
  assert (Hrun : run (hire test_env (mkIdentity 2 "freelancer") 1) posted_world =
                 (Some (mkResponse 200 (JMessage "Job aceito com sucesso! Chat liberado.")),
                  hired_world)) by reflexivity.
  destruct (hired_job_is_closed test_services test_env (mkIdentity 2 "freelancer") 1
              posted_world hired_world hired_world posted_world_reachable Hrun
              (steps_refl test_services hired_world)) as (Hrow & Hagain & _).
  split; [apply Hagain; reflexivity | exact Hrow].
Defined.

(** ** Registration, login and the token together *)

Lemma filter_app_fresh (email : string) (l : list user) (u : user) :
  (forall x, In x l -> u_email x <> email) -> u_email u = email ->
  filter (fun x => (u_email x =? email)%string) (l ++ [u]) = [u].
Proof.
  intros Hfresh Hu. rewrite filter_app. simpl.
  rewrite Hu, String.eqb_refl.
  replace (filter (fun x => (u_email x =? email)%string) l) with (@nil user); [reflexivity|].
  symmetry. apply filter_empty_iff. intros x Hx. apply String.eqb_neq. apply Hfresh. assumption.
Qed.

Section Accounts.

Variable S : services.

(** The world after a registration under a fresh email. *)
Lemma register_stored (e : env) (name email password : string) (r : field) (w : world) :
  (forall u, In u (users w) -> u_email u <> email) ->
  exists w',
    run (register S e (mkRegisterBody (Some name) (Some email) (Some password) r)) w =
    (Some (mkResponse 201 (JUserCreated "Usuário criado com sucesso!" (auto_users w))), w') /\
    users w' =
      (users w ++ [mkUser (auto_users w) name email (bcrypt_digest S password (salt e) 10)
                          (if truthy r then show r else "freelancer") None None])%list.
Proof.
  intros Hfresh.
  unfold register, select_users_by_email, bcrypt_hash, insert_user, sendEmailBrevo, axios_post.
  monad_unfold. simpl. rewrite (no_user_with_email email w Hfresh). simpl.
  destruct (mail e); simpl; eexists; split; reflexivity.
Qed.

(** X7. A user who has registered can log in: after a registration under a
    fresh email, a login with the same email and password is answered 200
    with the id the registration returned, the name and the stored role,
    provided bcrypt accepts a password against its own digest and the
    server has its signing secret; with a
    password bcrypt refuses against that digest it is answered 400 'Senha
    incorreta'; and a second registration under the same email is answered
    400 'Email já cadastrado' and changes nothing. *)
Theorem registered_user_can_login (e e' : env) (name email password : string) (r : field)
    (w : world) :
  (forall u, In u (users w) -> u_email u <> email) ->
  bcrypt_matches S password (bcrypt_digest S password (salt e) 10) = true ->
  JWT_SECRET S <> "" ->
  exists w' tok,
    run (register S e (mkRegisterBody (Some name) (Some email) (Some password) r)) w =
    (Some (mkResponse 201 (JUserCreated "Usuário criado com sucesso!" (auto_users w))), w') /\
    run (login S e' (mkLoginBody (Some email) (Some password))) w' =
    (Some (mkResponse 200
             (JSession tok (mkPublic (auto_users w) name
                                     (if truthy r then show r else "freelancer") None))),
     w') /\
    (forall wrong,
       bcrypt_matches S wrong (bcrypt_digest S password (salt e) 10) = false ->
       run (login S e' (mkLoginBody (Some email) (Some wrong))) w' =
       (Some (mkResponse 400 (JError "Senha incorreta")), w')) /\
    (forall e'' name' password' r',
       run (register S e'' (mkRegisterBody (Some name') (Some email) (Some password') r')) w' =
       (Some (mkResponse 400 (JError "Email já cadastrado")), w')).
Proof.
  intros Hfresh Hmatch Hsecret. apply String.eqb_neq in Hsecret.
  destruct (register_stored e name email password r w Hfresh) as (w' & Hrun & Husers).
  exists w'. eexists. split; [exact Hrun|].
  assert (Hfound : filter (fun u => (u_email u =? email)%string) (users w') =
                   [mkUser (auto_users w) name email (bcrypt_digest S password (salt e) 10)
                           (if truthy r then show r else "freelancer") None None]).
  { rewrite Husers. apply filter_app_fresh; [assumption | reflexivity]. }
  split; [|split].
  - unfold login, select_users_by_email, bcrypt_compare, jwt_sign. monad_unfold. simpl.
    rewrite Hfound. simpl. rewrite Hmatch. simpl. rewrite Hsecret. reflexivity.
  - intros wrong Hwrong.
    unfold login, select_users_by_email, bcrypt_compare. monad_unfold. simpl.
    rewrite Hfound. simpl. rewrite Hwrong. reflexivity.
  - intros e'' name' password' r'.
    unfold register, select_users_by_email. monad_unfold. simpl.
    rewrite Hfound. reflexivity.
Qed.

(** X8. The token a login returns opens the protected routes for 24 hours:
    sent as 'Bearer <token>', it makes the middleware run the rest of the
    route with the id and role of the user who logged in, at any time before
    24 hours have passed since the login, and be answered 403 from then on;
    provided the server has its signing secret, the token library parses
    back what it serializes, and the serialization is not empty and has no
    space. *)
Theorem login_token_authenticates (e e' : env) (email password : string) (u : user)
    (next : identity -> M response) (w w' : world) :
  find (fun x => (u_email x =? email)%string) (users w) = Some u ->
  bcrypt_matches S password (u_password u) = true ->
  JWT_SECRET S <> "" ->
  jwt_decode S (jwt_encode S (mkToken (u_id u) (u_role u) (now e) (now e + 86400) (JWT_SECRET S))) =
    Some (mkToken (u_id u) (u_role u) (now e) (now e + 86400) (JWT_SECRET S)) ->
  jwt_encode S (mkToken (u_id u) (u_role u) (now e) (now e + 86400) (JWT_SECRET S)) <> "" ->
  contains_space
    (jwt_encode S (mkToken (u_id u) (u_role u) (now e) (now e + 86400) (JWT_SECRET S))) = false ->
  exists tok,
    run (login S e (mkLoginBody (Some email) (Some password))) w =
    (Some (mkResponse 200
             (JSession tok (mkPublic (u_id u) (u_name u) (u_role u) (u_avatar_url u)))), w) /\
    (now e' < now e + 86400 ->
     run (authenticateToken S e' (Some ("Bearer " ++ tok)) next) w' =
     run (next (mkIdentity (u_id u) (u_role u))) w') /\
    (now e + 86400 <= now e' ->
     run (authenticateToken S e' (Some ("Bearer " ++ tok)) next) w' =
     (Some (mkResponse 403 (JError "Token inválido")), w')).
Proof.
  intros Hfind Hmatch Hsecret Hdec Hne Hsp. apply String.eqb_neq in Hsecret.
  exists (jwt_encode S (mkToken (u_id u) (u_role u) (now e) (now e + 86400) (JWT_SECRET S))).
  split.
  - unfold login, select_users_by_email, bcrypt_compare, jwt_sign. monad_unfold. simpl.
    destruct (filter_cons_find _ _ _ Hfind) as [rest Hf]. rewrite Hf. simpl.
    rewrite Hmatch. simpl. rewrite Hsecret. reflexivity.
  - assert (Htok : token_of_header
                     (Some ("Bearer " ++ jwt_encode S (mkToken (u_id u) (u_role u) (now e)
                                                               (now e + 86400) (JWT_SECRET S)))) =
                   Some (jwt_encode S (mkToken (u_id u) (u_role u) (now e)
                                               (now e + 86400) (JWT_SECRET S)))).
    { unfold token_of_header. rewrite (split_space_bearer _ Hsp). reflexivity. }
    split; intros Htime; rewrite authenticateToken_token, Htok, (truthy_nonempty _ Hne);
      unfold show, jwt_verify; rewrite Hdec; simpl; rewrite String.eqb_refl; simpl.
    + destruct (Z.leb_spec (now e + 86400) (now e')); [lia | reflexivity].
    + destruct (Z.leb_spec (now e + 86400) (now e')); [reflexivity | lia].
Qed.

End Accounts.

Lemma registered_user_can_login_witness :
  exists w' tok,
    run (register test_services test_env
           (mkRegisterBody (Some "Eve") (Some "eve@test") (Some "pw") None))
        (test_world open_job) =
      (Some (mkResponse 201 (JUserCreated "Usuário criado com sucesso!" 3)), w') /\
    run (login test_services late_env (mkLoginBody (Some "eve@test") (Some "pw"))) w' =
      (Some (mkResponse 200 (JSession tok (mkPublic 3 "Eve" "freelancer" None))), w').
Proof.
  destruct (registered_user_can_login test_services test_env late_env "Eve" "eve@test" "pw" None
              (test_world open_job)) as (w' & tok & Hreg & Hlogin & _).
  - simpl. intros u [<-|[<-|[]]]; simpl; discriminate.
  - reflexivity.
  - simpl. discriminate.
  - exists w', tok. split; [exact Hreg | exact Hlogin].
Defined.

Lemma login_token_authenticates_witness :
  exists tok,
    run (login test_services test_env (mkLoginBody (Some "ana@test") (Some "hunter2")))
        (test_world open_job) =
      (Some (mkResponse 200 (JSession tok (mkPublic 1 "Ana" "client" None))),
       test_world open_job) /\
    run (authenticateToken test_services test_env (Some ("Bearer " ++ tok)) echo_role) initial =
      (Some (mkResponse 200 (JText "client")), initial) /\
    run (authenticateToken test_services late_env (Some ("Bearer " ++ tok)) echo_role) initial =
      (Some (mkResponse 403 (JError "Token inválido")), initial).
Proof.
  destruct (login_token_authenticates test_services test_env test_env "ana@test" "hunter2" ana
              echo_role (test_world open_job) initial) as (tok & Hlogin & Hfresh & _);
    [reflexivity | reflexivity | simpl; discriminate | reflexivity | discriminate
     | reflexivity |].
  destruct (login_token_authenticates test_services test_env late_env "ana@test" "hunter2" ana
              echo_role (test_world open_job) initial) as (tok' & Hlogin' & _ & Hlate);
    [reflexivity | reflexivity | simpl; discriminate | reflexivity | discriminate
     | reflexivity |].
  assert (Htok : tok' = tok).
  { rewrite Hlogin in Hlogin'. injection Hlogin' as Heq. symmetry. exact Heq. }
  subst tok'. exists tok. split; [exact Hlogin|]. split.
  - rewrite Hfresh; [reflexivity | simpl; lia].
  - apply Hlate. simpl. lia.
Defined.

(** ** The invariant of the users table *)

#[local] Instance keeps_users_invariant_preorder : PreOrder keeps_users_invariant.
Proof.
  split.
  - intros w H. exact H.
  - intros w1 w2 w3 H12 H23 H. apply H23, H12, H.
Qed.

Lemma users_invariant_profile (bio avatar : option string) (i : Z) (w : world) :
  users_invariant w -> users_invariant (set_users (map (update_user_row bio avatar i)) w).
Proof.
  intros (He & Hi & Hb & Ha). unfold users_invariant. simpl.
  rewrite update_users_emails, update_users_ids. repeat split; try assumption.
  apply Forall_map. apply Forall_impl with (P := fun u => 1 <= u_id u < auto_users w); [|assumption].
  intros u. rewrite update_user_row_id. trivial.
Qed.

Lemma users_invariant_insert (u : user) (w : world) :
  users_invariant w -> u_id u = auto_users w ->
  (forall x, In x (users w) -> u_email x <> u_email u) ->
  users_invariant (bump_users (set_users (fun us => (us ++ [u])%list) w)).
Proof.
  intros (He & Hi & Hb & Ha) Hid Hfresh. unfold users_invariant. simpl.
  rewrite !map_app. simpl. rewrite Forall_forall in Hb. repeat split.
  - apply NoDup_snoc; [assumption|]. intros Hin. apply in_map_iff in Hin.
    destruct Hin as (x & Heq & Hx). apply (Hfresh x Hx Heq).
  - apply NoDup_snoc; [assumption|]. intros Hin. apply in_map_iff in Hin.
    destruct Hin as (x & Heq & Hx). specialize (Hb x Hx). lia.
  - apply Forall_app. split.
    + apply Forall_forall. intros x Hx. specialize (Hb x Hx). lia.
    + constructor; [lia | constructor].
  - lia.
Qed.

Ltac users_finish :=
  first
    [ intros ?; apply users_invariant_profile; assumption
    | unfold keeps_users_invariant, users_invariant; simpl; tauto ].

Section UsersTable.

Variable S : services.

Lemma register_keeps_users_invariant (e : env) (b : register_body) (w : world) :
  users_invariant w -> users_invariant (snd (run (register S e b) w)).
Proof.
  intros Hinv.
  unfold register, select_users_by_email, bcrypt_hash, insert_user, sendEmailBrevo, axios_post.
  monad_unfold.
  destruct b as [[name|] [email|] [password|] r]; simpl; try exact Hinv;
    destruct (filter _ (users w)) as [|u0 rest] eqn:Hf; simpl; try exact Hinv.
  assert (Hnew : users_invariant
            (bump_users (set_users
               (fun us => (us ++ [mkUser (auto_users w) name email
                                         (bcrypt_digest S password (salt e) 10)
                                         (if truthy r then show r else "freelancer")
                                         None None])%list) w))).
  { apply users_invariant_insert; [assumption | reflexivity |].
    intros x Hx. simpl. rewrite filter_empty_iff in Hf. specialize (Hf x Hx).
    apply String.eqb_neq. assumption. }
  destruct (mail e); simpl; exact Hnew.
Qed.

Lemma serve_keeps_users_invariant (e : env) (r : request) (w : world) :
  users_invariant w -> users_invariant (serve S e r w).
Proof.
  unfold serve. destruct r as [b|b|h bio file|h b|h jobId|h b]; simpl.
  - apply register_keeps_users_invariant.
  - apply (preserves_run keeps_users_invariant). unfold_handlers. preserves_with users_finish.
  - apply (preserves_run keeps_users_invariant). unfold_handlers. preserves_with users_finish.
  - apply (preserves_run keeps_users_invariant). unfold_handlers. preserves_with users_finish.
  - apply (preserves_run keeps_users_invariant). unfold_handlers. preserves_with users_finish.
  - apply (preserves_run keeps_users_invariant). unfold_handlers. preserves_with users_finish.
Qed.

(** X9. In every world the server reaches from the empty database, whatever
    the requests: no two user rows have the same email (registration
    checks before it inserts, and nothing else writes an email), no two have
    the same id, every id is at least 1 and below the next id to be given,
    and so the query by email that register and login run finds at most one
    row. *)
Theorem users_table_invariant (w : world) :
  reachable S w ->
  (forall u u', In u (users w) -> In u' (users w) -> u_email u = u_email u' -> u = u') /\
  (forall u u', In u (users w) -> In u' (users w) -> u_id u = u_id u' -> u = u') /\
  (forall u, In u (users w) -> 1 <= u_id u < auto_users w) /\
  (forall email,
     (List.length (filter (fun u => (u_email u =? email)%string) (users w)) <= 1)%nat).
Proof.
  intros Hreach.
  assert (Hinv : users_invariant w).
  { induction Hreach as [|w1 e r _ IH].
    - repeat split; simpl; try constructor. lia.
    - apply serve_keeps_users_invariant. assumption. }
  destruct Hinv as (He & Hi & Hb & _).
  assert (Hemail : forall u u', In u (users w) -> In u' (users w) ->
                                u_email u = u_email u' -> u = u').
  { clear Hi Hb. induction (users w) as [|a l IH]; simpl; [intros u u' []|].
    inversion He as [|k ks Hnot Hnd]; subst.
    intros u u' [<-|Hu] [<-|Hu'] Heq.
    - reflexivity.
    - exfalso. apply Hnot. rewrite Heq. apply in_map. assumption.
    - exfalso. apply Hnot. rewrite <- Heq. apply in_map. assumption.
    - apply IH; assumption. }
  split; [exact Hemail|]. split; [|split].
  - intros u u' Hu Hu' Heq. apply (unique_key u_id (users w)); assumption.
  - rewrite Forall_forall in Hb. exact Hb.
  - intros email.
    destruct (filter (fun u => (u_email u =? email)%string) (users w)) as [|a [|b rest]] eqn:Hf;
      simpl; try lia.
    exfalso.
    assert (Ha : In a (filter (fun u => (u_email u =? email)%string) (users w)))
      by (rewrite Hf; left; reflexivity).
    assert (Hb' : In b (filter (fun u => (u_email u =? email)%string) (users w)))
      by (rewrite Hf; right; left; reflexivity).
    apply filter_In in Ha. apply filter_In in Hb'.
    destruct Ha as [Ha Ea], Hb' as [Hb' Eb].
    apply String.eqb_eq in Ea. apply String.eqb_eq in Eb.
    assert (a = b) by (apply Hemail; congruence). subst b.
    assert (Hnd : NoDup (filter (fun u => (u_email u =? email)%string) (users w))).
    { apply NoDup_filter. apply (NoDup_map_inv u_email). assumption. }
    rewrite Hf in Hnd. inversion Hnd as [|x xs Hnot _]; subst. apply Hnot. left. reflexivity.
Qed.

End UsersTable.

Lemma users_table_invariant_witness :
  map u_email (users signed_up_world) = ["ana@test"; "bia@test"] /\
  map u_id (users signed_up_world) = [1; 2] /\
  (forall email,
     (List.length (filter (fun u => (u_email u =? email)%string) (users signed_up_world)) <= 1)%nat).
Proof.
  split; [reflexivity|]. split; [reflexivity|].
  apply (users_table_invariant test_services signed_up_world).
  unfold reachable, signed_up_world. do 2 apply steps_serve. apply steps_refl.
Defined.

(** ** Messages go between the two participants of a job *)

#[local] Instance same_messages_preorder : PreOrder same_messages.
Proof.
  split.
  - intros w. reflexivity.
  - intros w1 w2 w3 H12 H23. unfold same_messages in *. congruence.
Qed.

Section Threads.

Variable S : services.

Lemma sendMessage_appends (e : env) (user : identity) (b : message_body) (w : world) :
  messages (snd (run (sendMessage e user b) w)) = messages w \/
  exists m,
    messages (snd (run (sendMessage e user b) w)) = (messages w ++ [m])%list /\
    between_participants w m.
Proof.
  unfold sendMessage, select_job_of_participant, insert_message. monad_unfold.
  destruct b as [[jid|] content receiverId]; simpl; [|left; reflexivity].
  destruct (filter _ (jobs w)) as [|j0 rest] eqn:Hf; simpl; [left; reflexivity|].
  assert (Hj0 : In j0 (filter (fun j => (j_id j =? jid) &&
              ((j_client_id j =? id user) || sql_eq_null (j_freelancer_id j) (id user)))
              (jobs w))) by (rewrite Hf; left; reflexivity).
  apply filter_In in Hj0. destruct Hj0 as [Hin Hb].
  apply andb_true_iff in Hb. destruct Hb as [Hid Hpart]. apply Z.eqb_eq in Hid.
  destruct (Z.eqb_spec (id user) (j_client_id j0)) as [Hclient|Hother].
  - destruct (j_freelancer_id j0) as [f|] eqn:Hfree; simpl; [|left; reflexivity].
    destruct (f =? 0); simpl; [left; reflexivity|].
    destruct content as [c|]; simpl; [|left; reflexivity].
    right. eexists. split; [reflexivity|].
    exists j0, f. simpl. repeat split; try assumption. left. split; [assumption | reflexivity].
  - simpl. destruct (j_client_id j0 =? 0); simpl; [left; reflexivity|].
    destruct content as [c|]; simpl; [|left; reflexivity].
    right. eexists. split; [reflexivity|].
    assert (Hfree : j_freelancer_id j0 = Some (id user)).
    { apply orb_true_iff in Hpart. destruct Hpart as [Hc|Hs].
      - apply Z.eqb_eq in Hc. exfalso. apply Hother. congruence.
      - unfold sql_eq_null in Hs. destruct (j_freelancer_id j0) as [f|]; [|discriminate].
        apply Z.eqb_eq in Hs. congruence. }
    exists j0, (id user). simpl. repeat split; try assumption. right. split; reflexivity.
Qed.

Lemma serve_messages (e : env) (r : request) (w : world) :
  messages (serve S e r w) = messages w \/
  exists m,
    messages (serve S e r w) = (messages w ++ [m])%list /\ between_participants w m.
Proof.
  unfold serve. destruct r as [b|b|h bio file|h b|h jobId|h b]; simpl.
  - left. apply (preserves_run same_messages). unfold_handlers. preserves_with reflexivity.
  - left. apply (preserves_run same_messages). unfold_handlers. preserves_with reflexivity.
  - left. apply (preserves_run same_messages). unfold_handlers. preserves_with reflexivity.
  - left. apply (preserves_run same_messages). unfold_handlers. preserves_with reflexivity.
  - left. apply (preserves_run same_messages). unfold_handlers. preserves_with reflexivity.
  - rewrite snd_run.
    destruct (authenticateToken_cases S e h (fun user => sendMessage e user b) w)
      as [H|[H|[user H]]]; rewrite H; simpl; try (left; reflexivity).
    rewrite <- snd_run. apply sendMessage_appends.
Qed.

Lemma between_participants_effect (w w' : world) (m : message) :
  jobs_effect w w' -> jobs_invariant w ->
  between_participants w m -> between_participants w' m.
Proof.
  intros Heff Hinv (j & f & Hin & Hid & Hfree & Hside).
  exists j, f. repeat split; try assumption.
  apply (assigned_row_persists w w' j f); assumption.
Qed.

(** X10. In every world the server reaches from the empty database, every
    stored message belongs to a job of the table that has a freelancer, and
    it goes from that job's client to its freelancer or from the freelancer
    to the client: no message is stored for a job that was never hired, nor
    from or to a third party. *)
Theorem messages_between_participants (w : world) :
  reachable S w ->
  forall m, In m (messages w) -> between_participants w m.
Proof.
  intros Hreach.
  assert (H : jobs_invariant w /\ forall m, In m (messages w) -> between_participants w m).
  { induction Hreach as [|w1 e r Hsteps [Hinv IH]].
    - split; [apply jobs_invariant_initial | intros m []].
    - pose proof (serve_effect S e r w1) as Heff.
      split; [apply (jobs_invariant_effect w1); assumption|].
      intros m Hm.
      destruct (serve_messages e r w1) as [Hsame|(m' & Happ & Hnew)].
      + rewrite Hsame in Hm. apply (between_participants_effect w1); auto.
      + rewrite Happ in Hm. apply in_app_or in Hm. destruct Hm as [Hm|[<-|[]]].
        * apply (between_participants_effect w1); auto.
        * apply (between_participants_effect w1); auto. }
  apply H.
Qed.

End Threads.

Lemma messages_between_participants_witness :
  messages chatted_world = [mkMessage 1 1 1 (Some 2) "hello" 1000] /\
  between_participants chatted_world (mkMessage 1 1 1 (Some 2) "hello" 1000).
Proof.
  split; [reflexivity|].
  apply (messages_between_participants test_services chatted_world).
  - unfold reachable, chatted_world, hired_world, posted_world.
    do 3 apply steps_serve. apply steps_refl.
  - left. reflexivity.
Defined.

(** ** The e-mail helper *)

(** X14. sendEmailBrevo never rejects: whatever the e-mail API does, it makes
    exactly one request to it with the given recipient, subject and body,
    touches no table, and returns; with the API's answer and one line on the
    console when the send went through, with undefined and one error line
    (the API's error body if there is one, the error message otherwise) when
    it did not. *)
Theorem sendEmailBrevo_never_rejects (e : env) (toName toEmail : field)
    (subject htmlContent : string) (w : world) :
  exists result w',
    sendEmailBrevo e toName toEmail subject htmlContent w = (Value result, w') /\
    outbox w' = (outbox w ++ [mkEmail toName toEmail subject htmlContent])%list /\
    database w' = database w /\ cloud w' = cloud w /\
    (forall data, mail e = MailDelivered data ->
       result = Some data /\
       console w' = (console w ++ [("Email de registro enviado para " ++ show toEmail)%string])%list) /\
    (forall failure message, mail e = MailFailed failure message ->
       result = None /\
       console w' =
         (console w ++ [("Erro ao enviar email Brevo: " ++
                         match failure with Some detail => detail | None => message end)%string])%list).
Proof.
  unfold sendEmailBrevo, axios_post. monad_unfold.
  destruct (mail e) as [data|failure message] eqn:Hmail; simpl.
  - eexists. eexists. split; [reflexivity|]. simpl. repeat split.
    + injection H as <-. reflexivity.
    + discriminate.
    + discriminate.
  - eexists. eexists. split; [reflexivity|]. simpl. repeat split.
    + discriminate.
    + discriminate.
    + injection H as <- <-. destruct failure; reflexivity.
Qed.

(** ** The start-up log *)



(** ** Splitting a header *)

Lemma split_space_cons (s : string) : exists first rest, split_space s = first :: rest.
Proof.
  induction s as [|c s' (x & l & IH)]; simpl.
  - exists "", []. reflexivity.
  - rewrite IH. destruct (Ascii.eqb c " "); eexists; eexists; reflexivity.
Qed.

(** X16. [split(' ')] loses nothing: joining the pieces with single spaces
    gives the string back, no piece has a space in it, and there is always a
    first piece, so a header has a second word exactly when it has a space. *)
Theorem split_space_join (s : string) :
  String.concat " " (split_space s) = s /\
  Forall (fun piece => contains_space piece = false) (split_space s) /\
  (contains_space s = true <-> exists first second rest, split_space s = first :: second :: rest).
Proof.
  induction s as [|c rest (IHjoin & IHpieces & IHsecond)].
  - split; [reflexivity|]. split; [repeat constructor|].
    split; [discriminate | intros (a & b & l & H); discriminate].
  - simpl. destruct (split_space_cons rest) as (x & l & Hs). rewrite Hs in *.
    destruct (Ascii.eqb_spec c " "%char) as [->|Hc].
    + split; [|split].
      * simpl in *. rewrite IHjoin. reflexivity.
      * constructor; [reflexivity | assumption].
      * split; [intros _|reflexivity]. exists "", x, l. reflexivity.
    + assert (Hne : Ascii.eqb c " " = false) by (apply Ascii.eqb_neq; assumption).
      split; [|split].
      * destruct l as [|y l']; simpl in *; rewrite <- IHjoin; reflexivity.
      * inversion IHpieces as [|? ? Hx Hl]; subst.
        constructor; [simpl; rewrite Hne; assumption | assumption].
      * simpl. split.
        -- intros Hsp. apply IHsecond in Hsp. destruct Hsp as (a & b & l' & Heq).
           injection Heq as -> ->. exists (String c a), b, l'. reflexivity.
        -- intros (a & b & l' & Heq). apply IHsecond.
           injection Heq as _ ->. exists x, b, l'. reflexivity.
Qed.

(** ** The earlier server.js against the current one *)

Section Versions.

Variable e : env.

(** X17. The earlier hire did to the tables what the current one does, and told
    the client: for a freelancer, when [job0] is the first open row of the
    given id and [client0] the first user row of its client's id, it is
    answered 200 whether the e-mail goes through or not, the three tables
    end as the current hire leaves them, and exactly one e-mail was
    requested, to the client's name and address, with the job's title in
    its body. *)
Theorem legacy_hire_notifies_client (caller : identity) (jobId : Z) (job0 : job)
    (client0 : user) (w : world) :
  role caller = "freelancer" ->
  find (fun j => (j_id j =? jobId) && (j_status j =? "open")%string) (jobs w) = Some job0 ->
  find (fun u => u_id u =? j_client_id job0) (users w) = Some client0 ->
  exists w',
    run (Legacy.hire e caller jobId) w =
    (Some (mkResponse 200 (JMessage "Job aceito com sucesso! Chat liberado.")), w') /\
    fst (run (hire e caller jobId) w) =
    Some (mkResponse 200 (JMessage "Job aceito com sucesso! Chat liberado.")) /\
    database w' = database (snd (run (hire e caller jobId) w)) /\
    outbox w' =
      (outbox w ++
       [mkEmail (Some (u_name client0)) (Some (u_email client0)) "Seu Job foi aceito!"
                ("<p>O freelancer pegou seu job " ++ double_quote ++ j_title job0 ++
                 double_quote ++ ". Agora vocês podem trocar mensagens na plataforma.</p>")])%list.
Proof.
  intros Hrole Hjob Hclient.
  destruct (filter_cons_find _ _ _ Hjob) as [rest Hf].
  destruct (filter_cons_find _ _ _ Hclient) as [rest' Hc].
  unfold Legacy.hire, hire, select_open_job, update_job_hired, Legacy.select_user_contact,
         Legacy.sendEmailBrevo, axios_post.
  monad_unfold. rewrite Hrole. simpl. rewrite Hf. simpl. rewrite Hc. simpl.
  destruct (mail e); simpl; eexists; split; try reflexivity; repeat split.
Qed.

(** X18. The earlier profile update could not do without a bio: with the bio
    missing it is answered 500 'Erro ao atualizar perfil' and no row is
    changed, yet a file that came with the request has by then been written
    to the storage.  The current one answers the same requests: a no-op
    success when there is no file, an update when there is one. *)
Theorem legacy_profile_needs_bio (caller : identity) (file : option string) (w : world) :
  exists w',
    run (Legacy.updateProfile e caller None file) w =
    (Some (mkResponse 500 (JError "Erro ao atualizar perfil")), w') /\
    database w' = database w /\
    cloud w' = (cloud w ++ match file with Some buffer => [buffer] | None => [] end)%list /\
    (file = None ->
     run (updateProfile e caller None file) w =
     (Some (mkResponse 200 (JProfile "Nenhum dado fornecido para atualização." None)), w)) /\
    (forall buffer url, file = Some buffer -> upload e = UploadDone url ->
     fst (run (updateProfile e caller None file) w) =
     Some (mkResponse 200 (JProfile "Perfil atualizado com sucesso" (Some url)))).
Proof.
  unfold Legacy.updateProfile, updateProfile, uploadToCloudinary, update_users_profile.
  monad_unfold. destruct file as [buffer|]; simpl.
  - destruct (upload e) as [url|msg] eqn:Hup; simpl;
      eexists; (split; [reflexivity|]); simpl; repeat split; try discriminate.
    intros b u [= <-] [= <-]. reflexivity.
  - eexists. split; [reflexivity|]. simpl. rewrite app_nil_r. repeat split.
    intros b u [=].
Qed.


End Versions.

Lemma legacy_hire_notifies_client_witness :
  exists w',
    run (Legacy.hire (with_mail test_env (MailFailed None "ETIMEDOUT"))
           (mkIdentity 2 "freelancer") 1) (test_world open_job) =
      (Some (mkResponse 200 (JMessage "Job aceito com sucesso! Chat liberado.")), w') /\
    jobs w' = [hired_job] /\
    map e_toEmail (outbox w') = [Some "ana@test"].
Proof.
  destruct (legacy_hire_notifies_client (with_mail test_env (MailFailed None "ETIMEDOUT"))
              (mkIdentity 2 "freelancer") 1 open_job ana (test_world open_job))
    as (w' & Hrun & _ & Hdb & Hout); [reflexivity | reflexivity | reflexivity |].
  exists w'. split; [exact Hrun|]. split.
  - assert (Hjobs : jobs w' = jobs (snd (run (hire (with_mail test_env (MailFailed None "ETIMEDOUT"))
                                                   (mkIdentity 2 "freelancer") 1)
                                             (test_world open_job)))).
    { unfold database in Hdb. injection Hdb as _ Hj _. exact Hj. }
    rewrite Hjobs. reflexivity.
  - rewrite Hout. reflexivity.
Defined.

(** ** A message sent is a message read *)

Section Conversation.

Variable e : env.

Lemma listMessages_listed (reader : identity) (jobId : Z) (w : world) :
  (exists j, In j (jobs w) /\ j_id j = jobId /\
             (j_client_id j = id reader \/ j_freelancer_id j = Some (id reader))) ->
  run_query (listMessages reader jobId) w =
  (Listed (order_by_created_at
             (flat_map (fun m => map (fun u => mkMessageListing m (u_name u))
                                     (filter (fun u => m_sender_id m =? u_id u) (users w)))
                       (filter (fun m => m_job_id m =? jobId) (messages w)))), w).
Proof.
  intros Hsome. apply participant_query_found in Hsome.
  unfold listMessages, select_job_of_participant, select_messages_with_sender, run_query.
  monad_unfold. simpl.
  destruct (filter _ (jobs w)) as [|j0 rest]; [contradiction | reflexivity].
Qed.

(** X20. A message that was accepted shows in the thread of its job: after a
    send answered 201, each participant of the job who lists the thread
    gets every row they would have got before and a new one with the
    content sent, the sender's id and the sender's name, when the sender has
    a user row. *)
Theorem sent_message_is_listed (sender reader : identity) (jobId : Z) (content : string)
    (receiverId : option Z) (u : user) (w w' : world) :
  run (sendMessage e sender (mkMessageBody (Some jobId) (Some content) receiverId)) w =
    (Some (mkResponse 201 (JMessage "Mensagem enviada")), w') ->
  In u (users w) -> u_id u = id sender ->
  (exists j, In j (jobs w) /\ j_id j = jobId /\
             (j_client_id j = id reader \/ j_freelancer_id j = Some (id reader))) ->
  exists before after,
    run_query (listMessages reader jobId) w = (Listed before, w) /\
    run_query (listMessages reader jobId) w' = (Listed after, w') /\
    (forall row, In row before -> In row after) /\
    exists m,
      In (mkMessageListing m (u_name u)) after /\
      m_content m = content /\ m_sender_id m = id sender /\ m_job_id m = jobId /\
      m_id m = auto_messages w.
Proof.
  intros Hrun Hu Hid Hreader.
  assert (Hw' : users w' = users w /\ jobs w' = jobs w /\
                exists receiver,
                  messages w' =
                  (messages w ++ [mkMessage (auto_messages w) jobId (id sender) receiver
                                            content (now e)])%list).
  { revert Hrun. unfold sendMessage, select_job_of_participant, insert_message.
    monad_unfold. simpl.
    destruct (filter _ (jobs w)) as [|j0 rest]; simpl; [intros [= <-]; discriminate|].
    destruct (negb (truthy_num _)); simpl; [intros [= <-]; discriminate|].
    intros [= <-]. simpl. repeat split. eexists. reflexivity. }
  destruct Hw' as (Husers & Hjobs & receiver & Hmsgs).
  assert (Hreader' : exists j, In j (jobs w') /\ j_id j = jobId /\
             (j_client_id j = id reader \/ j_freelancer_id j = Some (id reader)))
    by (rewrite Hjobs; assumption).
  eexists. eexists.
  split; [apply (listMessages_listed reader jobId w Hreader)|].
  split; [apply (listMessages_listed reader jobId w' Hreader')|].
  split.
  - intros [m name] Hrow. apply thread_in in Hrow. apply thread_in.
    destruct Hrow as (Hin & Hjob & Hsender).
    rewrite Hmsgs, Husers. repeat split; try assumption.
    apply in_or_app. left. assumption.
  - exists (mkMessage (auto_messages w) jobId (id sender) receiver content (now e)).
    split; [|repeat split].
    apply thread_in. rewrite Hmsgs, Husers. split; [|split].
    + apply in_or_app. right. left. reflexivity.
    + reflexivity.
    + exists u. repeat split; assumption.
Qed.

End Conversation.

Lemma sent_message_is_listed_witness :
  exists before after,
    run_query (listMessages (mkIdentity 2 "freelancer") 1) (test_world hired_job) =
      (Listed before, test_world hired_job) /\
    run_query (listMessages (mkIdentity 2 "freelancer") 1)
              (snd (run (sendMessage test_env (mkIdentity 1 "client")
                           (mkMessageBody (Some 1) (Some "hello") None))
                        (test_world hired_job))) =
      (Listed after,
       snd (run (sendMessage test_env (mkIdentity 1 "client")
                   (mkMessageBody (Some 1) (Some "hello") None))
                (test_world hired_job))) /\
    before = [] /\
    exists m, In (mkMessageListing m "Ana") after /\ m_content m = "hello".
Proof.
  destruct (sent_message_is_listed test_env (mkIdentity 1 "client") (mkIdentity 2 "freelancer")
              1 "hello" None ana (test_world hired_job)
              (snd (run (sendMessage test_env (mkIdentity 1 "client")
                           (mkMessageBody (Some 1) (Some "hello") None))
                        (test_world hired_job))))
    as (before & after & Hbefore & Hafter & _ & m & Hin & Hcontent & _).
  - reflexivity.
  - left. reflexivity.
  - reflexivity.
  - exists hired_job. simpl. repeat split; auto.
  - exists before, after. split; [exact Hbefore|]. split; [exact Hafter|]. split.
    + assert (Heq : (Listed before, test_world hired_job) =
                    (@Listed message_listing [], test_world hired_job))
        by (rewrite <- Hbefore; reflexivity).
      injection Heq as ->. reflexivity.
    + exists m. split; [exact Hin | exact Hcontent].
Defined.
